(** * UsenetStreamer: resolution caches, completion watcher and history matcher

    A shallow embedding of four source modules of the add-on:

    - the NZBDav stream mount cache with its negative cache
      ([getOrCreateNzbdavStream], [markDownloadUrlFailed], ...),
    - the persistent instant playback cache ([getInstantCacheEntry], ...),
    - the nzbdav2 WebSocket client ([handleMessage], [scheduleReconnect], ...),
    - the smart history matching helpers ([parseReleaseTokens],
      [calculateReleaseSimilarity], [findMatchingHistoryItems]).

    Conventions of the embedding.

    - [Date.now()] is an argument [now : Z] (milliseconds) of every operation
      that reads the clock; one synchronous call reads one clock value.
    - JavaScript [Map]s and plain objects used as dictionaries are [gmap]s
      when iteration order is irrelevant, association lists when it matters.
    - A value tested for truthiness keeps the JavaScript reading: [null] /
      [undefined] are [None], the number [0] and the empty string are falsy.
    - Promises are identified by the index of the builder invocation that
      created them; the outcome of a settled promise is kept in [settled].
    - Similarity scores are IEEE doubles in the source; they are idealised
      here as exact rationals ([Q]).
    - A numeric setting read from the environment is an integer, or [None]
      when [Number(...)] is not finite.
    - Strings are byte strings; the character classes of the regular
      expressions are the ASCII ones. *)

From Stdlib Require Import ZArith QArith Qminmax Lia List Bool Ascii String Sorting.Sorted Sorting.Permutation.
From stdpp Require Import base option gmap strings list fin_maps fin_sets pretty.

Local Open Scope string_scope.
Local Open Scope Z_scope.

(* ===================================================================== *)
(** ** Shared JavaScript helpers *)
(* ===================================================================== *)

Module Js.

(** [s.includes(pat)] *)
Fixpoint includes (s pat : string) : bool :=
  String.prefix pat s ||
  match s with
  | EmptyString => false
  | String _ s' => includes s' pat
  end.

(** Truthiness of a number that may be [null] or [undefined]. *)
Definition truthyNum (x : option Z) : bool :=
  match x with
  | Some t => negb (t =? 0)
  | None => false
  end.

(** Truthiness of a string that may be [null] or [undefined]. *)
Definition truthyStr (x : option string) : bool :=
  match x with
  | Some s => negb (String.eqb s "")
  | None => false
  end.

(** [c.toLowerCase()] on an ASCII character. *)
Definition lowerChar (c : ascii) : ascii :=
  let n := nat_of_ascii c in
  if (65 <=? n)%nat && (n <=? 90)%nat then ascii_of_nat (n + 32) else c.

(** [s.toLowerCase()] *)
Fixpoint toLowerCase (s : string) : string :=
  match s with
  | EmptyString => EmptyString
  | String c s' => String (lowerChar c) (toLowerCase s')
  end.

(** [a || b] on possibly missing strings. *)
Definition orStr (a b : option string) : option string :=
  if truthyStr a then a else b.

End Js.

(* ===================================================================== *)
(** ** NZBDav stream mount cache (nzbdavCache.js) *)
(* ===================================================================== *)

Module NzbdavCache.

(** The payload a builder resolves to. *)
Record streamData := mkStreamData { viewPath : string; jobName : string }.

(** A thrown [Error]: the two properties the cache inspects besides the
    message. *)
Record jsError := mkError {
  isNzbdavFailure : bool;
  message : string;
  code : option string
}.

(** A thrown value; [None] is [null] / [undefined]. *)
Definition thrown := option jsError.

(** The four shapes of object stored in [nzbdavStreamCache]. A pending
    entry has no [expiresAt] property. *)
Inductive entry :=
| Ready (data : streamData) (expiresAt : option Z)
| Pending (promise : nat)
| Failed (error : thrown) (expiresAt : option Z)
| TimeoutPending (error : thrown) (startedAt : Z) (expiresAt : Z).

Inductive status := ready | pending | failed | timeout_pending.

Definition entry_status (e : entry) : status :=
  match e with
  | Ready _ _ => ready
  | Pending _ => pending
  | Failed _ _ => failed
  | TimeoutPending _ _ _ => timeout_pending
  end.

Definition entry_expiresAt (e : entry) : option Z :=
  match e with
  | Ready _ x => x
  | Pending _ => None
  | Failed _ x => x
  | TimeoutPending _ _ x => Some x
  end.

Record negativeEntry := mkNegative {
  failureReason : string;
  errorCode : option string;
  failedAt : Z;
  neg_expiresAt : Z
}.

Inductive outcome :=
| Resolved (data : streamData)
| Rejected (error : thrown).

(** Module state. [builderCalls] lists, oldest first, the cache key of every
    builder invocation; the promise created by the n-th invocation is
    promise [n]. *)
Record state := mkState {
  nzbdavStreamCache : gmap string entry;
  failedDownloadUrlCache : gmap string negativeEntry;
  NZBDAV_CACHE_TTL_MS : Z;
  NEGATIVE_CACHE_TTL_MS : Z;
  builderCalls : list string;
  settled : gmap nat outcome
}.

Definition DEFAULT_TTL_MS : Z := 24 * 60 * 60 * 1000.

Definition initial : state :=
  mkState ∅ ∅ DEFAULT_TTL_MS DEFAULT_TTL_MS [] ∅.

Definition with_cache (c : gmap string entry) (st : state) : state :=
  mkState c (failedDownloadUrlCache st) (NZBDAV_CACHE_TTL_MS st)
          (NEGATIVE_CACHE_TTL_MS st) (builderCalls st) (settled st).

Definition with_negative (c : gmap string negativeEntry) (st : state) : state :=
  mkState (nzbdavStreamCache st) c (NZBDAV_CACHE_TTL_MS st)
          (NEGATIVE_CACHE_TTL_MS st) (builderCalls st) (settled st).

(** [reloadNzbdavCacheConfig]: the arguments are
    [Number(process.env.NZBDAV_CACHE_TTL_MINUTES)] and
    [Number(process.env.NZBDAV_NEGATIVE_CACHE_TTL_HOURS)], [None] when the
    number is not finite. *)
Definition reloadNzbdavCacheConfig (raw negativeRaw : option Z) (st : state) : state :=
  let ttl :=
    match raw with
    | Some r => if 0 <=? r then r * 60 * 1000 else DEFAULT_TTL_MS
    | None => DEFAULT_TTL_MS
    end in
  let neg :=
    match negativeRaw with
    | Some r => if 0 <=? r then r * 60 * 60 * 1000 else DEFAULT_TTL_MS
    | None => DEFAULT_TTL_MS
    end in
  mkState (nzbdavStreamCache st) (failedDownloadUrlCache st) ttl neg
          (builderCalls st) (settled st).

(** [entry.expiresAt && entry.expiresAt <= now] *)
Definition expired (expiresAt : option Z) (now : Z) : bool :=
  Js.truthyNum expiresAt &&
  match expiresAt with
  | Some t => t <=? now
  | None => false
  end.

(** *** Negative cache *)

Definition cleanupNegativeCache (now : Z) (st : state) : state :=
  if NEGATIVE_CACHE_TTL_MS st <=? 0 then st
  else with_negative
         (filter (λ kv, expired (Some (neg_expiresAt kv.2)) now = false)
                 (failedDownloadUrlCache st)) st.

Definition isDownloadUrlFailed (now : Z) (downloadUrl : string) (st : state)
  : option negativeEntry * state :=
  let st1 := cleanupNegativeCache now st in
  match failedDownloadUrlCache st1 !! downloadUrl with
  | None => (None, st1)
  | Some e =>
      if expired (Some (neg_expiresAt e)) now
      then (None, with_negative (delete downloadUrl (failedDownloadUrlCache st1)) st1)
      else (Some e, st1)
  end.

Definition markDownloadUrlFailed (now : Z) (downloadUrl reason : string)
    (errCode : option string) (st : state) : state :=
  if NEGATIVE_CACHE_TTL_MS st <=? 0 then st
  else with_negative
         (<[downloadUrl := mkNegative reason errCode now (now + NEGATIVE_CACHE_TTL_MS st)]>
            (failedDownloadUrlCache st)) st.

Definition clearFailedDownloadUrl (downloadUrl : string) (st : state) : bool * state :=
  match failedDownloadUrlCache st !! downloadUrl with
  | Some _ => (true, with_negative (delete downloadUrl (failedDownloadUrlCache st)) st)
  | None => (false, st)
  end.

Definition clearAllFailedDownloadUrls (st : state) : state := with_negative ∅ st.

(** *** Main cache *)

Definition cleanupNzbdavCache (now : Z) (st : state) : state :=
  if NZBDAV_CACHE_TTL_MS st <=? 0 then st
  else with_cache
         (filter (λ kv, expired (entry_expiresAt kv.2) now = false)
                 (nzbdavStreamCache st)) st.

Definition clearNzbdavStreamCache (st : state) : state := with_cache ∅ st.

Definition clearNzbdavStreamCacheEntry (cacheKey : string) (st : state) : bool * state :=
  match nzbdavStreamCache st !! cacheKey with
  | Some _ => (true, with_cache (delete cacheKey (nzbdavStreamCache st)) st)
  | None => (false, st)
  end.

Definition TIMEOUT_PENDING_TTL_MS : Z := 10 * 60 * 1000.

Definition isTimeoutError (error : thrown) : bool :=
  match error with
  | None => false
  | Some e =>
      Js.includes (message e) "Timeout" ||
      Js.includes (message e) "timeout" ||
      Js.includes (message e) "ETIMEDOUT" ||
      Js.includes (message e) "ESOCKETTIMEDOUT" ||
      bool_decide (code e = Some "ETIMEDOUT") ||
      bool_decide (code e = Some "ESOCKETTIMEDOUT")
  end.

(** [error?.isNzbdavFailure] *)
Definition flagged (error : thrown) : bool :=
  match error with
  | Some e => isNzbdavFailure e
  | None => false
  end.

(** What the caller of [getOrCreateNzbdavStream] gets from the synchronous
    part of the call: cached data, the promise of an attempt already in
    flight, a re-raised cached error, or the promise of the attempt this
    call has just started (the builder was invoked). *)
Inductive callResult :=
| ReturnData (data : streamData)
| ReturnPromise (promise : nat)
| Throw (error : thrown)
| Started (promise : nat).

(** The TTL-dependent [expiresAt] written for ready and failed entries. *)
Definition ttlExpiry (now : Z) (st : state) : option Z :=
  if 0 <? NZBDAV_CACHE_TTL_MS st then Some (now + NZBDAV_CACHE_TTL_MS st) else None.

(** [getOrCreateNzbdavStream(cacheKey, builder)] up to its first suspension:
    cleanup, lookup, and, unless a ready, pending or failed entry answers
    the call, the builder invocation and the pending entry. *)
Definition getOrCreateNzbdavStream (now : Z) (cacheKey : string) (st : state)
  : callResult * state :=
  let st1 := cleanupNzbdavCache now st in
  let start :=
    let p := length (builderCalls st1) in
    (Started p,
     mkState (<[cacheKey := Pending p]> (nzbdavStreamCache st1))
             (failedDownloadUrlCache st1) (NZBDAV_CACHE_TTL_MS st1)
             (NEGATIVE_CACHE_TTL_MS st1) (builderCalls st1 ++ [cacheKey])
             (settled st1)) in
  match nzbdavStreamCache st1 !! cacheKey with
  | Some (Ready data _) => (ReturnData data, st1)
  | Some (Pending p) => (ReturnPromise p, st1)
  | Some (Failed error _) => (Throw error, st1)
  | Some (TimeoutPending _ _ _) => start
  | None => start
  end.

(** The rest of the call that started promise [p] for [cacheKey], run when
    the builder settles with [o] at time [now]: the ready entry on success,
    the [catch] block on failure. *)
Definition settle (now : Z) (cacheKey : string) (p : nat) (o : outcome) (st : state)
  : state :=
  let cache' :=
    match o with
    | Resolved data => <[cacheKey := Ready data (ttlExpiry now st)]> (nzbdavStreamCache st)
    | Rejected error =>
        if flagged error
        then <[cacheKey := Failed error (ttlExpiry now st)]> (nzbdavStreamCache st)
        else if isTimeoutError error
        then <[cacheKey := TimeoutPending error now (now + TIMEOUT_PENDING_TTL_MS)]>
               (nzbdavStreamCache st)
        else delete cacheKey (nzbdavStreamCache st)
    end in
  mkState cache' (failedDownloadUrlCache st) (NZBDAV_CACHE_TTL_MS st)
          (NEGATIVE_CACHE_TTL_MS st) (builderCalls st) (<[p := o]> (settled st)).

(** Events of the resolution cache: a call, the settlement of the attempt
    behind a promise, and a configuration reload. Manual clears are not
    events of this machine. *)
Inductive event :=
| Call (now : Z) (cacheKey : string)
| Settle (now : Z) (promise : nat) (o : outcome)
| Reload (raw negativeRaw : option Z).

(** A settlement is only possible for a promise that exists and has not
    settled yet; it runs in the call that created the promise, hence with
    that call's cache key. *)
Definition step (ev : event) (st : state) : option state :=
  match ev with
  | Call now k => Some (getOrCreateNzbdavStream now k st).2
  | Settle now p o =>
      match builderCalls st !! p, settled st !! p with
      | Some k, None => Some (settle now k p o st)
      | _, _ => None
      end
  | Reload raw negativeRaw => Some (reloadNzbdavCacheConfig raw negativeRaw st)
  end.

Fixpoint run (evs : list event) (st : state) : option state :=
  match evs with
  | [] => Some st
  | ev :: evs' =>
      match step ev st with
      | Some st' => run evs' st'
      | None => None
      end
  end.


End NzbdavCache.

(* ===================================================================== *)
(** ** Persistent instant playback cache (instantCache.js) *)
(* ===================================================================== *)

Module InstantCache.

(** A cached record: the job reference saved by the caller plus the
    [cachedAt] stamp. A record read back from disk may lack the stamp. *)
Record instantEntry := mkEntry {
  nzoId : string;
  jobName : string;
  cachedAt : option Z
}.

Definition DEFAULT_TTL_MS : Z := 7 * 24 * 60 * 60 * 1000.

(** [INSTANT_CACHE_TTL_MS]: the argument is
    [Number(process.env.INSTANT_CACHE_TTL_DAYS)], [None] when the number is
    not finite. *)
Definition INSTANT_CACHE_TTL_MS (raw : option Z) : Z :=
  match raw with
  | Some r => if 0 <? r then r * 24 * 60 * 60 * 1000 else DEFAULT_TTL_MS
  | None => DEFAULT_TTL_MS
  end.

(** What [instant-cache.json] holds. *)
Inductive file :=
| NoFile
| Corrupt
| Json (content : gmap string instantEntry).

(** [instantCache] is [null] until the first access; [disk] is the file. *)
Record state := mkState {
  instantCache : option (gmap string instantEntry);
  cacheLoadedAt : Z;
  disk : file
}.

Definition initial (f : file) : state := mkState None 0 f.

Definition loadInstantCache (now : Z) (st : state) : state :=
  match disk st with
  | Json m => mkState (Some m) now (disk st)
  | NoFile => mkState (Some ∅) (cacheLoadedAt st) (disk st)
  | Corrupt => mkState (Some ∅) (cacheLoadedAt st) (disk st)
  end.

(** [saveInstantCache], the write succeeding. *)
Definition saveInstantCache (st : state) : state :=
  match instantCache st with
  | Some m => mkState (instantCache st) (cacheLoadedAt st) (Json m)
  | None => st
  end.

(** [getInstantCache]: the loaded state together with the object. *)
Definition getInstantCache (now : Z) (st : state) : gmap string instantEntry * state :=
  match instantCache st with
  | Some m => (m, st)
  | None =>
      let st' := loadInstantCache now st in
      (default ∅ (instantCache st'), st')
  end.

(** A requested episode; a component is [None] when it is not a finite
    number. *)
Record episode := mkEpisode { season : option Z; episodeNo : option Z }.

Definition buildInstantCacheKey (type id : string) (requestedEpisode : option episode)
  : string :=
  match requestedEpisode with
  | Some {| season := Some s; episodeNo := Some e |} =>
      type +:+ ":" +:+ id +:+ ":" +:+ "S" +:+ pretty s +:+ "E" +:+ pretty e
  | _ => type +:+ ":" +:+ id
  end.

(** [getInstantCacheEntry]; [ttl] is the module constant
    [INSTANT_CACHE_TTL_MS]. *)
Definition getInstantCacheEntry (ttl now : Z) (type id : string)
    (requestedEpisode : option episode) (st : state)
  : option instantEntry * state :=
  let '(cache, st1) := getInstantCache now st in
  let key := buildInstantCacheKey type id requestedEpisode in
  match cache !! key with
  | None => (None, st1)
  | Some entry =>
      if Js.truthyNum (cachedAt entry) && (0 <? ttl) &&
         (ttl <? now - default 0 (cachedAt entry))
      then (None,
            saveInstantCache
              (mkState (Some (delete key cache)) (cacheLoadedAt st1) (disk st1)))
      else (Some entry, st1)
  end.

(** [setInstantCacheEntry]; [entryData] is spread first, so the stamp of
    the call wins over a [cachedAt] in the data. *)
Definition setInstantCacheEntry (now : Z) (type id : string)
    (requestedEpisode : option episode) (entryData : instantEntry) (st : state)
  : state :=
  let '(cache, st1) := getInstantCache now st in
  let key := buildInstantCacheKey type id requestedEpisode in
  saveInstantCache
    (mkState (Some (<[key := mkEntry (nzoId entryData) (jobName entryData) (Some now)]> cache))
             (cacheLoadedAt st1) (disk st1)).

Definition clearInstantCacheEntry (now : Z) (type id : string)
    (requestedEpisode : option episode) (st : state) : state :=
  let '(cache, st1) := getInstantCache now st in
  let key := buildInstantCacheKey type id requestedEpisode in
  match cache !! key with
  | Some _ =>
      saveInstantCache
        (mkState (Some (delete key cache)) (cacheLoadedAt st1) (disk st1))
  | None => st1
  end.


End InstantCache.

(* ===================================================================== *)
(** ** nzbdav2 WebSocket client (nzbdavWs.js) *)
(* ===================================================================== *)

Module NzbdavWs.

(** The history slot of a frame, with the three spellings the client
    accepts for each property. *)
Record slot := mkSlot {
  nzo_id : option string;
  nzoId : option string;
  NzoId : option string;
  status : option string;
  Status : option string;
  fail_message : option string;
  failMessage : option string;
  FailMessage : option string
}.

(** [outer.Message]: a string that does not parse, or the slot ([None] for
    [null] / [undefined]). *)
Inductive message :=
| BadMessage
| Slot (s : option slot).

(** A raw frame: text that is not JSON, or an object with its [Topic]. *)
Inductive frame :=
| NotJson
| Frame (Topic : option string) (Message : message).

(** The flagged error built for a failed job. *)
Record nzbdavFailure := mkFailure {
  message_ : string;
  isNzbdavFailure : bool;
  failureMessage : string;
  err_nzoId : string
}.

Inductive waiterOutcome :=
| ResolvedWith (s : slot)
| RejectedFailure (e : nzbdavFailure)
| RejectedTimeout (msg : string).

(** A waiter: the promise behind [resolve] / [reject], and its deadline
    timer. *)
Record waiter := mkWaiter { promise : nat; timer : nat }.

Record state := mkState {
  configured : bool;
  ws : option nat;
  sockets : nat;
  connected : bool;
  authenticated : bool;
  reconnectTimer : option Z;
  reconnectDelay : Z;
  reconnectLog : list Z;
  waiters : gmap string waiter;
  armed : gset nat;
  nextId : nat;
  outcomes : gmap nat waiterOutcome
}.

Definition MAX_RECONNECT_DELAY : Z := 30000.

Definition initial (conf : bool) : state :=
  mkState conf None 0 false false None 1000 [] ∅ ∅ 0 ∅.

Definition isConnected (st : state) : bool := connected st && authenticated st.

Definition with_waiters (w : gmap string waiter) (a : gset nat)
    (o : gmap nat waiterOutcome) (st : state) : state :=
  mkState (configured st) (ws st) (sockets st) (connected st) (authenticated st)
          (reconnectTimer st) (reconnectDelay st) (reconnectLog st) w a (nextId st) o.

(** [resolve] / [reject] of promise [p]: a promise settles once. *)
Definition settleOnce (p : nat) (o : waiterOutcome) (m : gmap nat waiterOutcome)
  : gmap nat waiterOutcome :=
  match m !! p with
  | None => <[p := o]> m
  | Some _ => m
  end.

(** [slot?.nzo_id || slot?.nzoId || slot?.NzoId] *)
Definition slotId (s : slot) : option string :=
  Js.orStr (Js.orStr (nzo_id s) (nzoId s)) (NzoId s).

(** [(slot.status || slot.Status || '').toString().toLowerCase()] *)
Definition slotStatus (s : slot) : string :=
  Js.toLowerCase (default "" (Js.orStr (Js.orStr (status s) (Status s)) (Some ""))).

Definition slotFailMessage (s : slot) : string :=
  default "Unknown NZBDav error"
    (Js.orStr (Js.orStr (Js.orStr (fail_message s) (failMessage s)) (FailMessage s))
              (Some "Unknown NZBDav error")).

Definition handleMessage (raw : frame) (st : state) : state :=
  match raw with
  | NotJson => st
  | Frame topic msg =>
      if negb (bool_decide (topic = Some "ha")) then st else
      match msg with
      | BadMessage => st
      | Slot None => st
      | Slot (Some s) =>
          match slotId s with
          | None => st
          | Some id =>
              if negb (Js.truthyStr (Some id)) then st else
              match waiters st !! id with
              | None => st
              | Some w =>
                  let st1 := with_waiters (delete id (waiters st))
                               (armed st ∖ {[timer w]}) (outcomes st) st in
                  let st_status := slotStatus s in
                  if String.eqb st_status "completed" then
                    with_waiters (waiters st1) (armed st1)
                      (settleOnce (promise w) (ResolvedWith s) (outcomes st1)) st1
                  else if String.eqb st_status "failed" then
                    let fm := slotFailMessage s in
                    with_waiters (waiters st1) (armed st1)
                      (settleOnce (promise w)
                         (RejectedFailure
                            (mkFailure ("[NZBDAV] NZB failed: " +:+ fm) true fm id))
                         (outcomes st1)) st1
                  else st1
              end
          end
      end
  end.

Definition cleanup (st : state) : state :=
  mkState (configured st) None (sockets st) false false None
          (reconnectDelay st) (reconnectLog st)
          (waiters st) (armed st) (nextId st) (outcomes st).

Definition connect (st : state) : state :=
  if negb (configured st) then st else
  let st1 := cleanup st in
  mkState (configured st1) (Some (sockets st1)) (S (sockets st1))
          (connected st1) (authenticated st1) (reconnectTimer st1)
          (reconnectDelay st1) (reconnectLog st1)
          (waiters st1) (armed st1) (nextId st1) (outcomes st1).

(** The ['open'] handler. *)
Definition onOpen (st : state) : state :=
  mkState (configured st) (ws st) (sockets st) true (authenticated st)
          (reconnectTimer st) 1000 (reconnectLog st)
          (waiters st) (armed st) (nextId st) (outcomes st).

(** The ['message'] handler. *)
Definition onMessage (raw : frame) (st : state) : state :=
  handleMessage raw
    (mkState (configured st) (ws st) (sockets st) (connected st) true
             (reconnectTimer st) (reconnectDelay st) (reconnectLog st)
             (waiters st) (armed st) (nextId st) (outcomes st)).

(** [scheduleReconnect]; [reconnectLog] records the delay each timer is
    armed with (the value printed by the log line). *)
Definition scheduleReconnect (st : state) : state :=
  match reconnectTimer st with
  | Some _ => st
  | None =>
      mkState (configured st) (ws st) (sockets st) (connected st) (authenticated st)
              (Some (reconnectDelay st))
              (Z.min (reconnectDelay st * 2) MAX_RECONNECT_DELAY)
              (reconnectLog st ++ [reconnectDelay st])
              (waiters st) (armed st) (nextId st) (outcomes st)
  end.

(** The ['close'] handler. *)
Definition onClose (st : state) : state :=
  scheduleReconnect
    (mkState (configured st) None (sockets st) false false
             (reconnectTimer st) (reconnectDelay st) (reconnectLog st)
             (waiters st) (armed st) (nextId st) (outcomes st)).

(** The reconnect timer fires. *)
Definition onReconnectTimer (st : state) : state :=
  connect
    (mkState (configured st) (ws st) (sockets st) (connected st) (authenticated st)
             None (reconnectDelay st) (reconnectLog st)
             (waiters st) (armed st) (nextId st) (outcomes st)).



(** [waitForHistoryEvent]: the promise and timer get fresh identifiers. *)
Definition waitForHistoryEvent (id : string) (st : state) : nat * state :=
  let p := nextId st in
  let t := S (nextId st) in
  (p, mkState (configured st) (ws st) (sockets st) (connected st) (authenticated st)
              (reconnectTimer st) (reconnectDelay st) (reconnectLog st)
              (<[id := mkWaiter p t]> (waiters st)) (armed st ∪ {[t]})
              (S (S (nextId st))) (outcomes st)).

(** The deadline timer [t] of the waiter created for [id] with promise [p]
    fires. *)
Definition onWaiterTimeout (id : string) (p t : nat) (st : state) : state :=
  if bool_decide (t ∈ armed st) then
    with_waiters (delete id (waiters st)) (armed st ∖ {[t]})
      (settleOnce p
         (RejectedTimeout ("[NZBDAV-WS] Timeout waiting for WS event for " +:+ id))
         (outcomes st)) st
  else st.

Definition cancelWaiter (id : string) (st : state) : state :=
  match waiters st !! id with
  | Some w => with_waiters (delete id (waiters st)) (armed st ∖ {[timer w]}) (outcomes st) st
  | None => st
  end.

Definition init (st : state) : state :=
  if configured st then connect st else st.

End NzbdavWs.

(* ===================================================================== *)
(** ** Smart history matching (utils/parsers.js) *)
(* ===================================================================== *)

Module HistoryMatching.

(** *** String primitives *)

(** The ASCII part of the class [\s]. *)
Definition isSpace (c : ascii) : bool :=
  let n := nat_of_ascii c in
  ((9 <=? n)%nat && (n <=? 13)%nat) || (n =? 32)%nat.

(** The class [\d]. *)
Definition isDigit (c : ascii) : bool :=
  let n := nat_of_ascii c in
  (48 <=? n)%nat && (n <=? 57)%nat.

(** The class [[a-z]] under the [i] flag. *)
Definition isLetter (c : ascii) : bool :=
  let n := nat_of_ascii c in
  ((65 <=? n)%nat && (n <=? 90)%nat) || ((97 <=? n)%nat && (n <=? 122)%nat).

(** The class [[._-]]. *)
Definition isSeparator (c : ascii) : bool :=
  Ascii.eqb c "." || Ascii.eqb c "_" || Ascii.eqb c "-".

(** The class [[()\[\]{}]]. *)
Definition isBracket (c : ascii) : bool :=
  Ascii.eqb c "(" || Ascii.eqb c ")" || Ascii.eqb c "[" || Ascii.eqb c "]" ||
  Ascii.eqb c "{" || Ascii.eqb c "}".

Fixpoint trimStart (s : string) : string :=
  match s with
  | EmptyString => EmptyString
  | String c s' => if isSpace c then trimStart s' else s
  end.

Fixpoint trimEnd (s : string) : string :=
  match s with
  | EmptyString => EmptyString
  | String c s' =>
      let r := trimEnd s' in
      if isSpace c && String.eqb r "" then EmptyString else String c r
  end.

Definition trim (s : string) : string := trimEnd (trimStart s).

(** [s.replace(/C+/g, ' ')] for a character class [C]; [inRun] tells that
    the previous character was in the class. *)
Fixpoint collapseRuns (C : ascii → bool) (inRun : bool) (s : string) : string :=
  match s with
  | EmptyString => EmptyString
  | String c s' =>
      if C c
      then if inRun then collapseRuns C true s'
           else String " " (collapseRuns C true s')
      else String c (collapseRuns C false s')
  end.

(** [s.replace(/C/g, ' ')] *)
Fixpoint blankOut (C : ascii → bool) (s : string) : string :=
  match s with
  | EmptyString => EmptyString
  | String c s' => String (if C c then " "%char else c) (blankOut C s')
  end.

Definition EXTENSIONS : list string :=
  [".nzb"; ".zip"; ".rar"; ".mkv"; ".avi"; ".mp4"].

(** [s.replace(/\.(nzb|zip|rar|mkv|avi|mp4)$/i, '')] *)
Definition stripExtension (s : string) : string :=
  let n := String.length s in
  if (4 <=? n)%nat &&
     existsb (String.eqb (Js.toLowerCase (substring (n - 4) 4 s))) EXTENSIONS
  then substring 0 (n - 4) s
  else s.

(** [s.split(' ')] *)
Fixpoint split (s : string) : list string :=
  match s with
  | EmptyString => [EmptyString]
  | String c s' =>
      if Ascii.eqb c " " then EmptyString :: split s'
      else match split s' with
           | h :: t => String c h :: t
           | [] => [String c EmptyString]
           end
  end.

Fixpoint allChars (C : ascii → bool) (s : string) : bool :=
  match s with
  | EmptyString => true
  | String c s' => C c && allChars C s'
  end.

Fixpoint anyChar (C : ascii → bool) (s : string) : bool :=
  match s with
  | EmptyString => false
  | String c s' => C c || anyChar C s'
  end.

(** [/^\d+$/.test(s)] *)
Definition allDigits (s : string) : bool :=
  negb (String.eqb s "") && allChars isDigit s.

(** [/^(19|20)\d{2}$/.test(s)] *)
Definition isYear (s : string) : bool :=
  (String.length s =? 4)%nat &&
  (String.prefix "19" s || String.prefix "20" s) &&
  allChars isDigit (substring 2 2 s).

(** [/^(480|576|720|1080|2160)[pi]?$/i.test(s)] *)
Definition isResolution (s : string) : bool :=
  let l := Js.toLowerCase s in
  existsb (λ r, String.eqb l r || String.eqb l (r +:+ "p") || String.eqb l (r +:+ "i"))
          ["480"; "576"; "720"; "1080"; "2160"].

(** [s.replace(/[pi]$/, 'p')] *)
Fixpoint normalizeScan (s : string) : string :=
  match s with
  | EmptyString => EmptyString
  | String c EmptyString =>
      if Ascii.eqb c "p" || Ascii.eqb c "i" then "p" else String c EmptyString
  | String c s' => String c (normalizeScan s')
  end.

Definition has (set : list string) (s : string) : bool := existsb (String.eqb s) set.

Definition QUALITY_TOKENS : list string :=
  [ "480p"; "576p"; "720p"; "1080p"; "1080i"; "2160p"; "4k"; "uhd";
    "bluray"; "bdrip"; "brrip"; "dvdrip"; "dvdscr"; "hdtv"; "pdtv"; "sdtv";
    "webrip"; "web-dl"; "webdl"; "web"; "hdrip"; "hdcam"; "cam"; "ts"; "tc";
    "screener"; "scr"; "r5"; "dvd"; "bd"; "remux";
    "x264"; "x265"; "h264"; "h265"; "hevc"; "avc"; "xvid"; "divx"; "mpeg";
    "hdr"; "hdr10"; "hdr10+"; "dv"; "dolby"; "vision"; "hlg";
    "aac"; "ac3"; "dts"; "dts-hd"; "truehd"; "atmos"; "flac"; "mp3"; "dd5"; "ddp5";
    "3d"; "hsbs"; "hou"; "sbs";
    "proper"; "repack"; "rerip"; "internal"; "extended"; "unrated"; "directors"; "cut";
    "dubbed"; "dual"; "multi"; "subbed"; "hardcoded"; "hc" ].

Definition LANGUAGE_TOKENS : list string :=
  [ "english"; "eng"; "en"; "french"; "fr"; "german"; "de"; "spanish"; "es";
    "italian"; "ita"; "it"; "dutch"; "nl"; "portuguese"; "pt"; "russian"; "ru";
    "japanese"; "jp"; "korean"; "kr"; "chinese"; "cn"; "hindi"; "hin";
    "nordic"; "swedish"; "danish"; "norwegian"; "finnish" ].

Definition SOURCES : list string :=
  [ "bluray"; "bdrip"; "brrip"; "dvdrip"; "webrip"; "web-dl"; "webdl"; "web";
    "hdtv"; "remux" ].

Definition CODECS : list string :=
  [ "x264"; "x265"; "h264"; "h265"; "hevc"; "avc"; "xvid"; "divx" ].

(** *** parseReleaseTokens *)

Record parsed := mkParsed {
  titleWords : list string;
  year : option string;
  resolution : option string;
  source : option string;
  codec : option string;
  group : option string;
  raw : string
}.

(** The variables of the token loop. *)
Record scan := mkScan {
  s_titleWords : list string;
  s_year : option string;
  s_resolution : option string;
  s_source : option string;
  s_codec : option string;
  s_group : option string;
  s_found : bool
}.

Definition scan0 : scan := mkScan [] None None None None None false.

Definition isNone {A} (o : option A) : bool :=
  match o with None => true | Some _ => false end.

(** The title-word filter applied before the first quality marker. *)
Definition keepsTitleWord (token : string) : bool :=
  ((1 <? String.length token)%nat && negb (allDigits token)) ||
  ((String.length token =? 1)%nat && anyChar isLetter token) ||
  (allDigits token && (String.length token <=? 2)%nat).

(** One iteration of the loop; [isLast] is [i === tokens.length - 1]. *)
Definition scanToken (isLast : bool) (st : scan) (token : string) : scan :=
  let lower := Js.toLowerCase token in
  if isNone (s_year st) && isYear token then
    mkScan (s_titleWords st) (Some token) (s_resolution st) (s_source st)
           (s_codec st) (s_group st) true
  else if isNone (s_resolution st) && isResolution lower then
    mkScan (s_titleWords st) (s_year st) (Some (normalizeScan lower)) (s_source st)
           (s_codec st) (s_group st) true
  else if isNone (s_resolution st) && (String.eqb lower "4k" || String.eqb lower "uhd") then
    mkScan (s_titleWords st) (s_year st) (Some "2160p") (s_source st)
           (s_codec st) (s_group st) true
  else if has QUALITY_TOKENS lower then
    mkScan (s_titleWords st) (s_year st) (s_resolution st)
           (if isNone (s_source st) && has SOURCES lower then Some lower else s_source st)
           (if isNone (s_codec st) && has CODECS lower then Some lower else s_codec st)
           (s_group st) true
  else if has LANGUAGE_TOKENS lower then st
  else
    mkScan (if negb (s_found st) && keepsTitleWord token
            then s_titleWords st ++ [lower] else s_titleWords st)
           (s_year st) (s_resolution st) (s_source st) (s_codec st)
           (if isLast then Some lower else s_group st)
           (s_found st).

Fixpoint scanTokens (st : scan) (tokens : list string) : scan :=
  match tokens with
  | [] => st
  | [token] => scanToken true st token
  | token :: rest => scanTokens (scanToken false st token) rest
  end.

(** The separator folding that precedes tokenization. *)
Definition normalizeTitle (rawTitle : string) : string :=
  trim (collapseRuns isSpace false
          (blankOut isBracket
             (collapseRuns isSeparator false (stripExtension rawTitle)))).

Definition tokenize (title : string) : list string :=
  split (normalizeTitle (trim title)).

Definition parseReleaseTokens (title : string) : parsed :=
  if String.eqb title "" then mkParsed [] None None None None None ""
  else
    let st := scanTokens scan0 (tokenize title) in
    mkParsed (s_titleWords st) (s_year st) (s_resolution st) (s_source st)
             (s_codec st) (s_group st) (trim title).

Definition extractCoreTitleWords (title : string) : list string :=
  titleWords (parseReleaseTokens title).

(** *** Similarity *)

(** [new Set(words)]: the distinct words. Only the size and the members of
    the set are used. *)
Definition toSet (words : list string) : list string := remove_dups words.

Definition ratio (a b : nat) : Q := inject_Z (Z.of_nat a) / inject_Z (Z.of_nat b).

Definition calculateWordSimilarity (words1 words2 : list string) : Q :=
  if (length words1 =? 0)%nat || (length words2 =? 0)%nat then 0%Q
  else
    let set1 := toSet words1 in
    let set2 := toSet words2 in
    let intersection := length (filter (λ w, has set2 w = true) set1) in
    let union := (length set1 + length set2 - intersection)%nat in
    if (0 <? union)%nat then ratio intersection union else 0%Q.

Record releaseSimilarity := mkSimilarity {
  score : Q;
  titleMatch : bool;
  yearMatch : bool;
  yearMismatch : bool;
  allWords1InWords2 : bool;
  allWords2InWords1 : bool;
  titleSimilarity : Q
}.

Definition YEAR_BONUS : Q := 1 # 10.
Definition YEAR_PENALTY : Q := 2 # 10.

(** [ws1.length > 0 && ws1.every((w) => ws2.includes(w))] *)
Definition allWordsIn (ws1 ws2 : list string) : bool :=
  (0 <? length ws1)%nat && forallb (has ws2) ws1.

Definition calculateReleaseSimilarity (parsed1 parsed2 : parsed) : releaseSimilarity :=
  let titleSim := calculateWordSimilarity (titleWords parsed1) (titleWords parsed2) in
  let bothYears := Js.truthyStr (year parsed1) && Js.truthyStr (year parsed2) in
  let yMatch := bothYears && bool_decide (year parsed1 = year parsed2) in
  let yMismatch := bothYears && negb (bool_decide (year parsed1 = year parsed2)) in
  let score1 := if yMatch then Qmin 1 (titleSim + YEAR_BONUS) else titleSim in
  let score2 := if yMismatch then Qmax 0 (score1 - YEAR_PENALTY) else score1 in
  let in12 := allWordsIn (titleWords parsed1) (titleWords parsed2) in
  let in21 := allWordsIn (titleWords parsed2) (titleWords parsed1) in
  mkSimilarity score2
               (Qle_bool (8 # 10) titleSim || in12 || in21)
               yMatch yMismatch in12 in21 titleSim.

(** *** findMatchingHistoryItems *)

Record historyEntry := mkHistoryEntry { jobName : option string; nzoId : string }.

(** The [options] argument; a missing property is [None]. *)
Record options := mkOptions {
  minSimilarity : option Q;
  requireAllWords : option bool
}.

Record matchItem := mkMatch {
  entry : historyEntry;
  normalizedTitle : string;
  similarity : Q;
  details : releaseSimilarity
}.

Definition DEFAULT_MIN_SIMILARITY : Q := 6 # 10.

(** The match test of the loop body. *)
Definition isMatch (minSim : Q) (strict : bool) (sim : releaseSimilarity) : bool :=
  if strict then allWords1InWords2 sim
  else Qle_bool minSim (score sim) || allWords1InWords2 sim || allWords2InWords1 sim.

(** What the loop computes for one history entry. *)
Definition compare (searchParsed : parsed) (kv : string * historyEntry) : matchItem :=
  let historyParsed :=
    parseReleaseTokens
      (default "" (Js.orStr (jobName kv.2) (Some kv.1))) in
  let sim := calculateReleaseSimilarity searchParsed historyParsed in
  mkMatch kv.2 kv.1 (score sim) sim.

(** Insertion into a list sorted by descending similarity, before the
    first item that does not score higher. *)
Fixpoint insertDesc (x : matchItem) (l : list matchItem) : list matchItem :=
  match l with
  | [] => [x]
  | y :: l' =>
      if Qle_bool (similarity y) (similarity x) then x :: y :: l'
      else y :: insertDesc x l'
  end.

(** [matches.sort((a, b) => b.similarity - a.similarity)]: the stable sort
    by descending similarity. *)
Definition sortDesc (l : list matchItem) : list matchItem := foldr insertDesc [] l.

(** [historyMap] is a [Map]; its entries are listed in insertion order. *)
Definition findMatchingHistoryItems (searchTitle : string)
    (historyMap : list (string * historyEntry)) (opts : options) : list matchItem :=
  let minSim := default DEFAULT_MIN_SIMILARITY (minSimilarity opts) in
  let strict := default false (requireAllWords opts) in
  if String.eqb searchTitle "" || (length historyMap =? 0)%nat then []
  else
    let searchParsed := parseReleaseTokens searchTitle in
    if (length (titleWords searchParsed) =? 0)%nat then []
    else
      sortDesc
        (filter (λ m, isMatch minSim strict (details m) = true)
                (map (compare searchParsed) historyMap)).

End HistoryMatching.

(* ===================================================================== *)
(** ** Specification vocabulary and sample data *)
(* ===================================================================== *)

(** Invariant and sample inputs for the NZBDav stream mount cache. *)
Module NzbdavCacheSpec.
Import NzbdavCache.


Definition socketTimeout : thrown :=
  Some (mkError false "Timeout while waiting for NZBDav" (Some "ETIMEDOUT")).

Definition backendTimeout : thrown :=
  Some (mkError true "[NZBDAV] NZB failed: Connection timeout" None).

Definition parseError : thrown :=
  Some (mkError false "Unexpected token < in JSON" None).

(** The configuration with both TTLs set to zero. *)
Definition zeroTtl : state := reloadNzbdavCacheConfig (Some 0) (Some 0) initial.

End NzbdavCacheSpec.

(** Sample states of the instant playback cache. *)
Module InstantCacheSpec.
Import InstantCache.

(** A loaded cache holding [entry] under the key of the request. *)
Definition loadedWith (cache : gmap string instantEntry) (st : state) : Prop :=
  instantCache st = Some cache.

Definition savedAt (t : Z) : state :=
  setInstantCacheEntry t "movie" "tt0133093" None
    (mkEntry "SABnzbd_nzo_1" "The.Matrix.1999" None) (initial NoFile).

End InstantCacheSpec.

(** Sample frames and the delay sequence of the WebSocket client. *)
Module NzbdavWsSpec.
Import NzbdavWs.

(** A history frame for job [id] whose slot is [s]. *)
Definition historyFrame (s : slot) : frame := Frame (Some "ha") (Slot (Some s)).

Definition extracting : slot :=
  mkSlot (Some "SABnzbd_nzo_7") None None (Some "Extracting") None None None None.

Definition completed : slot :=
  mkSlot (Some "SABnzbd_nzo_7") None None (Some "Completed") None None None None.

(** The state in which a caller waits for job [SABnzbd_nzo_7]. *)
Definition waiting : state :=
  (waitForHistoryEvent "SABnzbd_nzo_7" (onOpen (connect (initial true)))).2.


End NzbdavWsSpec.

(** Spec-side definitions and sample titles for the history matcher. *)
Module HistoryMatchingSpec.
Import HistoryMatching.

(** Following the spec, "Jaccard similarity over the two titleWord sets":
    the size of the intersection over the size of the union, and zero
    when both sets are empty. *)
Definition jaccard (A B : gset string) : Q :=
  if decide (size (A ∪ B) = 0%nat) then 0%Q
  else ratio (size (A ∩ B)) (size (A ∪ B)).

Definition wordSet (words : list string) : gset string := list_to_set words.











Definition weeksLater : string * historyEntry :=
  ("28 weeks later", mkHistoryEntry (Some "28.Weeks.Later.2007.720p") "nzo_1").

Definition theMatrix : string * historyEntry :=
  ("the matrix", mkHistoryEntry None "nzo_3").

Definition history : list (string * historyEntry) :=
  [ weeksLater;
    ("28 days later", mkHistoryEntry (Some "28 Days Later DVDrip") "nzo_2");
    theMatrix ].

End HistoryMatchingSpec.

(* ===================================================================== *)
(** ** Further functions of the cache, the client and their neighbours *)
(* ===================================================================== *)

(** The statistics of the NZBDav stream mount cache and its cache key. *)
Module NzbdavCacheStats.
Import NzbdavCache.

Global Instance status_eq_dec : EqDecision status.
Proof. solve_decision. Defined.

(** The [byStatus] object of [getNzbdavCacheStats], filled by the loop over
    the values of the cache. *)
Record byStatus := mkByStatus {
  n_ready : nat;
  n_pending : nat;
  n_failed : nat;
  n_timeout_pending : nat
}.

Definition bump (s : status) (b : byStatus) : byStatus :=
  match s with
  | ready => mkByStatus (S (n_ready b)) (n_pending b) (n_failed b) (n_timeout_pending b)
  | pending => mkByStatus (n_ready b) (S (n_pending b)) (n_failed b) (n_timeout_pending b)
  | failed => mkByStatus (n_ready b) (n_pending b) (S (n_failed b)) (n_timeout_pending b)
  | timeout_pending =>
      mkByStatus (n_ready b) (n_pending b) (n_failed b) (S (n_timeout_pending b))
  end.

Record negativeStats := mkNegativeStats { neg_entries : nat; neg_ttlMs : Z }.

Record cacheStats := mkCacheStats {
  entries : nat;
  ttlMs : Z;
  counts : byStatus;
  negativeCache : negativeStats
}.

(** [getNegativeCacheStats]: the cleanup runs first. *)
Definition getNegativeCacheStats (now : Z) (st : state) : negativeStats * state :=
  let st1 := cleanupNegativeCache now st in
  (mkNegativeStats (size (failedDownloadUrlCache st1)) (NEGATIVE_CACHE_TTL_MS st1), st1).

Definition getNzbdavCacheStats (now : Z) (st : state) : cacheStats * state :=
  let '(neg, st1) := getNegativeCacheStats now st in
  (mkCacheStats (size (nzbdavStreamCache st)) (NZBDAV_CACHE_TTL_MS st)
     (foldr (λ kv b, bump (entry_status kv.2) b) (mkByStatus 0 0 0 0)
            (map_to_list (nzbdavStreamCache st)))
     neg,
   st1).

End NzbdavCacheStats.

(** The events of the WebSocket client as one machine. *)
Module NzbdavWsEvents.
Import NzbdavWs.

(** Socket events come from the current socket only ([cleanup] removes the
    listeners of a replaced one), the reconnect timer fires only while it is
    armed, and the deadline timer of the waiter with promise [p] is timer
    [S p], as [waitForHistoryEvent] numbers them. *)
Inductive event :=
| Init
| Open
| Message (raw : frame)
| Close
| ReconnectTimer
| Wait (id : string)
| WaiterTimeout (id : string) (p : nat)
| Cancel (id : string).

Definition step (ev : event) (st : state) : state :=
  match ev with
  | Init => init st
  | Open => match ws st with Some _ => onOpen st | None => st end
  | Message raw => match ws st with Some _ => onMessage raw st | None => st end
  | Close => match ws st with Some _ => onClose st | None => st end
  | ReconnectTimer =>
      match reconnectTimer st with Some _ => onReconnectTimer st | None => st end
  | Wait id => (waitForHistoryEvent id st).2
  | WaiterTimeout id p => onWaiterTimeout id p (S p) st
  | Cancel id => cancelWaiter id st
  end.

Definition run (evs : list event) (st : state) : state :=
  fold_left (λ s ev, step ev s) evs st.

(** The numbering kept by [waitForHistoryEvent]: a registered waiter has the
    timer that follows its promise, registered waiters have distinct
    promises, and every promise or timer in use is below [nextId]. *)
Record wellNumbered (st : state) : Prop := mkWellNumbered {
  wn_waiter : ∀ id w, waiters st !! id = Some w →
    timer w = S (promise w) ∧ (promise w < nextId st)%nat;
  wn_distinct : ∀ id1 id2 w1 w2,
    waiters st !! id1 = Some w1 → waiters st !! id2 = Some w2 →
    promise w1 = promise w2 → id1 = id2;
  wn_armed : ∀ t, t ∈ armed st → (t < nextId st)%nat;
  wn_outcomes : ∀ p o, outcomes st !! p = Some o → (p < nextId st)%nat
}.

(** Promise [p] can no longer be settled: it is unsettled, no registered
    waiter holds it and its timer is not armed. *)
Record abandoned (p : nat) (st : state) : Prop := mkAbandoned {
  ab_unsettled : outcomes st !! p = None;
  ab_unregistered : ∀ id w, waiters st !! id = Some w → promise w ≠ p;
  ab_disarmed : S p ∉ armed st;
  ab_old : (p < nextId st)%nat
}.

End NzbdavWsEvents.

(* ===================================================================== *)
(** ** Health checks (health/index.js) *)
(* ===================================================================== *)

Module Health.

Inductive status := up | down | unconfigured.

Global Instance status_eq_dec : EqDecision status.
Proof. solve_decision. Defined.

Inductive overall := healthy | degraded | unhealthy.

(** The object a check returns. *)
Record checkResult := mkResult {
  c_status : status;
  c_message : option string;
  c_latencyMs : option Z;
  c_version : option string
}.

(** What the checks read of an HTTP response: the status code, whether
    [data.meta] and [data.images.base_url] are truthy, and [data.version]. *)
Record response := mkResponse {
  r_status : Z;
  r_meta : bool;
  r_base_url : bool;
  r_version : option string
}.

(** The request of a check: a response (every status is accepted,
    [validateStatus: () => true]) or a thrown error with its message. *)
Inductive httpOutcome :=
| Responded (r : response)
| Threw (message : string).

(** [withLatency] followed by the common tail of the checks: the error, if
    any, makes the check [down]. *)
Definition finish (latencyMs : Z) (r : string + option string) : checkResult :=
  match r with
  | inl message =>
      mkResult down
        (Some (if Js.truthyStr (Some message) then message else "Connection failed"))
        (Some latencyMs) None
  | inr version => mkResult up None (Some latencyMs) version
  end.

Definition unconfiguredResult (message : string) : checkResult :=
  mkResult unconfigured (Some message) None None.

Definition authFailed (code : Z) : bool := (code =? 401) || (code =? 403).

Definition checkNzbdavApi (baseUrl apiKey : option string)
    (o : httpOutcome) (latencyMs : Z) : checkResult :=
  if negb (Js.truthyStr baseUrl) then unconfiguredResult "URL not configured"
  else if negb (Js.truthyStr apiKey) then unconfiguredResult "API key not configured"
  else finish latencyMs
    match o with
    | Threw m => inl m
    | Responded r =>
        if authFailed (r_status r) then inl "Authentication failed"
        else if 500 <=? r_status r then inl ("Server error: " +:+ pretty (r_status r))
        else if 400 <=? r_status r then inl ("Client error: " +:+ pretty (r_status r))
        else inr None
    end.

Definition checkNzbdavWebdav (baseUrl username password : option string)
    (o : httpOutcome) (latencyMs : Z) : checkResult :=
  if negb (Js.truthyStr baseUrl) then unconfiguredResult "URL not configured"
  else if negb (Js.truthyStr username) || negb (Js.truthyStr password)
  then unconfiguredResult "Credentials not configured"
  else finish latencyMs
    match o with
    | Threw m => inl m
    | Responded r =>
        if authFailed (r_status r) then inl "Authentication failed"
        else if 400 <=? r_status r then inl ("HTTP " +:+ pretty (r_status r))
        else if negb (r_status r =? 207) && negb (r_status r =? 200)
        then inl ("Unexpected status: " +:+ pretty (r_status r))
        else inr None
    end.

(** [result?.version && { version }]: a truthy version is reported. *)
Definition reported (version : option string) : option string :=
  if Js.truthyStr version then version else None.

Definition checkIndexer (type baseUrl apiKey : option string)
    (o : httpOutcome) (latencyMs : Z) : checkResult :=
  if negb (Js.truthyStr baseUrl) then unconfiguredResult "URL not configured"
  else
    let managerType :=
      Js.toLowerCase (default "" (Js.orStr type (Some "prowlarr"))) in
    finish latencyMs
      (if String.eqb managerType "prowlarr" then
         if negb (Js.truthyStr apiKey) then inl "API key not configured"
         else match o with
              | Threw m => inl m
              | Responded r =>
                  if authFailed (r_status r) then inl "Authentication failed"
                  else if negb (r_status r =? 200)
                  then inl ("HTTP " +:+ pretty (r_status r))
                  else inr (reported (r_version r))
              end
       else match o with
            | Threw m => inl m
            | Responded r =>
                if authFailed (r_status r) then inl "Authentication failed"
                else if negb (r_status r =? 200)
                then inl ("HTTP " +:+ pretty (r_status r))
                else inr None
            end).

Definition checkCinemeta (o : httpOutcome) (latencyMs : Z) : checkResult :=
  finish latencyMs
    match o with
    | Threw m => inl m
    | Responded r =>
        if negb (r_status r =? 200) then inl ("HTTP " +:+ pretty (r_status r))
        else if negb (r_meta r) then inl "Invalid response format"
        else inr None
    end.

Definition checkTmdb (apiKey : option string) (o : httpOutcome) (latencyMs : Z)
  : checkResult :=
  if negb (Js.truthyStr apiKey) then unconfiguredResult "API key not configured"
  else finish latencyMs
    match o with
    | Threw m => inl m
    | Responded r =>
        if authFailed (r_status r) then inl "Authentication failed"
        else if negb (r_status r =? 200) then inl ("HTTP " +:+ pretty (r_status r))
        else if negb (r_base_url r) then inl "Invalid response format"
        else inr None
    end.

(** The first event of the NNTP connection attempt; [finalize] ignores the
    later ones. *)
Inductive nntpOutcome :=
| NntpReady
| NntpError (message : option string)
| NntpClosed
| NntpTimedOut
| NntpConnectThrew (message : string).

Definition checkUsenet (host : option string) (libraryAvailable : bool)
    (o : nntpOutcome) (latencyMs : Z) : checkResult :=
  if negb (Js.truthyStr host) then unconfiguredResult "Host not configured"
  else if negb libraryAvailable then unconfiguredResult "NNTP library not available"
  else finish latencyMs
    match o with
    | NntpReady => inr None
    | NntpError m => inl (default "" (Js.orStr m (Some "NNTP error")))
    | NntpClosed => inl "Connection closed"
    | NntpTimedOut => inl "Connection timed out"
    | NntpConnectThrew m => inl m
    end.

Definition criticalServices : list string := ["nzbdav_api"; "nzbdav_webdav"].

(** [determineOverallStatus]; [checks] lists the entries of the object. *)
Definition determineOverallStatus (checks : list (string * checkResult)) : overall :=
  let isDown (kv : string * checkResult) := bool_decide (c_status kv.2 = down) in
  let downCount := length (List.filter isDown checks) in
  let criticalDown :=
    existsb (λ kv, isDown kv && existsb (String.eqb kv.1) criticalServices) checks in
  if criticalDown then unhealthy
  else if (0 <? downCount)%nat then degraded
  else
    let configuredCount :=
      length (List.filter (λ kv, negb (bool_decide (c_status kv.2 = unconfigured))) checks) in
    if (configuredCount <? 2)%nat then degraded else healthy.

(** The configuration read by [runHealthChecks]. *)
Record config := mkConfig {
  nzbdavUrl : option string;
  nzbdavApiKey : option string;
  nzbdavWebdavUrl : option string;
  nzbdavWebdavUser : option string;
  nzbdavWebdavPass : option string;
  indexerType : option string;
  indexerUrl : option string;
  indexerApiKey : option string;
  tmdbApiKey : option string;
  usenetHost : option string
}.

(** What the six probes meet, each with its measured latency. *)
Record network := mkNetwork {
  net_api : httpOutcome * Z;
  net_webdav : httpOutcome * Z;
  net_indexer : httpOutcome * Z;
  net_cinemeta : httpOutcome * Z;
  net_tmdb : httpOutcome * Z;
  net_usenet : nntpOutcome * Z;
  nntpLibrary : bool
}.

(** The six checks in the order of the [checks] object. *)
Definition runChecks (c : config) (n : network) : list (string * checkResult) :=
  [ ("nzbdav_api", checkNzbdavApi (nzbdavUrl c) (nzbdavApiKey c) (net_api n).1 (net_api n).2);
    ("nzbdav_webdav",
     checkNzbdavWebdav (Js.orStr (nzbdavWebdavUrl c) (nzbdavUrl c))
       (nzbdavWebdavUser c) (nzbdavWebdavPass c) (net_webdav n).1 (net_webdav n).2);
    ("indexer",
     checkIndexer (indexerType c) (indexerUrl c) (indexerApiKey c)
       (net_indexer n).1 (net_indexer n).2);
    ("cinemeta", checkCinemeta (net_cinemeta n).1 (net_cinemeta n).2);
    ("tmdb", checkTmdb (tmdbApiKey c) (net_tmdb n).1 (net_tmdb n).2);
    ("usenet",
     checkUsenet (usenetHost c) (nntpLibrary n) (net_usenet n).1 (net_usenet n).2) ].

(** An entry of [result.dependencies]. *)
Record dependency := mkDependency {
  d_status : status;
  d_latency_ms : option Z;
  d_message : option string;
  d_version : option string
}.

Definition toDependency (verbose : bool) (check : checkResult) : dependency :=
  mkDependency (c_status check) (c_latencyMs check)
    (if verbose && Js.truthyStr (c_message check) then c_message check else None)
    (if verbose && Js.truthyStr (c_version check) then c_version check else None).

Record healthReport := mkReport {
  h_status : overall;
  h_dependencies : list (string * dependency)
}.

Definition runHealthChecks (c : config) (n : network) (verbose : bool) : healthReport :=
  let checks := runChecks c n in
  mkReport (determineOverallStatus checks)
           (map (λ kv, (kv.1, toDependency verbose kv.2)) checks).

End Health.

(* ===================================================================== *)
(** ** Operational statistics (stats.js) *)
(* ===================================================================== *)

(** The counters are JS numbers; they are modelled as integers, which is
    exact as long as a counter stays below 2^53. *)

Module Stats.

Record prefetchStats := mkPrefetch { p_hits : Z; p_misses : Z; p_started : Z }.
Record instantStats := mkInstant { i_hits : Z; i_misses : Z; i_historyHits : Z }.
Record triageStats := mkTriage {
  t_verified : Z;
  t_unverified : Z;
  t_blocked : Z;
  t_errors : Z;
  t_totalCandidates : Z
}.
Record downloadStats := mkDownloads { d_totalDurationMs : Z; d_count : Z; d_failures : Z }.
Record blocklistStats := mkBlocklist { b_remux : Z; b_iso : Z; b_adult : Z; b_total : Z }.
Record requestStats := mkRequests { r_total : Z; r_movies : Z; r_series : Z }.

(** The [stats] object. *)
Record stats := mkStats {
  prefetch : prefetchStats;
  instant : instantStats;
  triage : triageStats;
  downloads : downloadStats;
  blocklist : blocklistStats;
  requests : requestStats;
  startedAt : Z
}.

(** [resetStats]; also the object at module load. *)
Definition resetStats (now : Z) : stats :=
  mkStats (mkPrefetch 0 0 0) (mkInstant 0 0 0) (mkTriage 0 0 0 0 0)
          (mkDownloads 0 0 0) (mkBlocklist 0 0 0 0) (mkRequests 0 0 0) now.

Definition with_prefetch (p : prefetchStats) (s : stats) : stats :=
  mkStats p (instant s) (triage s) (downloads s) (blocklist s) (requests s) (startedAt s).
Definition with_instant (i : instantStats) (s : stats) : stats :=
  mkStats (prefetch s) i (triage s) (downloads s) (blocklist s) (requests s) (startedAt s).
Definition with_triage (t : triageStats) (s : stats) : stats :=
  mkStats (prefetch s) (instant s) t (downloads s) (blocklist s) (requests s) (startedAt s).
Definition with_downloads (d : downloadStats) (s : stats) : stats :=
  mkStats (prefetch s) (instant s) (triage s) d (blocklist s) (requests s) (startedAt s).
Definition with_blocklist (b : blocklistStats) (s : stats) : stats :=
  mkStats (prefetch s) (instant s) (triage s) (downloads s) b (requests s) (startedAt s).
Definition with_requests (r : requestStats) (s : stats) : stats :=
  mkStats (prefetch s) (instant s) (triage s) (downloads s) (blocklist s) r (startedAt s).

Definition trackPrefetchHit (s : stats) : stats :=
  with_prefetch (mkPrefetch (p_hits (prefetch s) + 1) (p_misses (prefetch s))
                            (p_started (prefetch s))) s.
Definition trackPrefetchMiss (s : stats) : stats :=
  with_prefetch (mkPrefetch (p_hits (prefetch s)) (p_misses (prefetch s) + 1)
                            (p_started (prefetch s))) s.
Definition trackPrefetchStarted (s : stats) : stats :=
  with_prefetch (mkPrefetch (p_hits (prefetch s)) (p_misses (prefetch s))
                            (p_started (prefetch s) + 1)) s.
Definition trackInstantHit (s : stats) : stats :=
  with_instant (mkInstant (i_hits (instant s) + 1) (i_misses (instant s))
                          (i_historyHits (instant s))) s.
Definition trackInstantMiss (s : stats) : stats :=
  with_instant (mkInstant (i_hits (instant s)) (i_misses (instant s) + 1)
                          (i_historyHits (instant s))) s.
Definition trackInstantHistoryHit (count : Z) (s : stats) : stats :=
  with_instant (mkInstant (i_hits (instant s)) (i_misses (instant s))
                          (i_historyHits (instant s) + count)) s.

(** [String(x || '').toLowerCase()] *)
Definition label (x : option string) : string :=
  Js.toLowerCase (default "" (Js.orStr x (Some ""))).

Definition trackTriageResult (status : option string) (s : stats) : stats :=
  let t := triage s in
  let l := label status in
  let t' :=
    if String.eqb l "verified" then
      mkTriage (t_verified t + 1) (t_unverified t) (t_blocked t) (t_errors t)
               (t_totalCandidates t)
    else if String.eqb l "unverified" || String.eqb l "unverified_7z" then
      mkTriage (t_verified t) (t_unverified t + 1) (t_blocked t) (t_errors t)
               (t_totalCandidates t)
    else if String.eqb l "blocked" then
      mkTriage (t_verified t) (t_unverified t) (t_blocked t + 1) (t_errors t)
               (t_totalCandidates t)
    else
      mkTriage (t_verified t) (t_unverified t) (t_blocked t) (t_errors t + 1)
               (t_totalCandidates t) in
  with_triage (mkTriage (t_verified t') (t_unverified t') (t_blocked t') (t_errors t')
                        (t_totalCandidates t' + 1)) s.

(** [trackTriageBatch]; [decisions] is [None] when it is not an array, and
    lists the [status] of each decision, an object, otherwise. *)
Definition trackTriageBatch (decisions : option (list (option string))) (s : stats)
  : stats :=
  match decisions with
  | None => s
  | Some ds => fold_left (λ acc d, trackTriageResult d acc) ds s
  end.

Definition trackDownload (durationMs : Z) (success : bool) (s : stats) : stats :=
  let d := downloads s in
  if success
  then with_downloads (mkDownloads (d_totalDurationMs d + durationMs) (d_count d + 1)
                                   (d_failures d)) s
  else with_downloads (mkDownloads (d_totalDurationMs d) (d_count d) (d_failures d + 1)) s.

Definition trackBlocklistHit (type : option string) (s : stats) : stats :=
  let b := blocklist s in
  let l := label type in
  let b' :=
    if String.eqb l "remux" then mkBlocklist (b_remux b + 1) (b_iso b) (b_adult b) (b_total b)
    else if String.eqb l "iso" || String.eqb l "release"
    then mkBlocklist (b_remux b) (b_iso b + 1) (b_adult b) (b_total b)
    else if String.eqb l "adult"
    then mkBlocklist (b_remux b) (b_iso b) (b_adult b + 1) (b_total b)
    else b in
  with_blocklist (mkBlocklist (b_remux b') (b_iso b') (b_adult b') (b_total b' + 1)) s.

Definition trackRequest (type : option string) (s : stats) : stats :=
  let r := requests s in
  let l := label type in
  let r1 := mkRequests (r_total r + 1) (r_movies r) (r_series r) in
  with_requests
    (if String.eqb l "movie" then mkRequests (r_total r1) (r_movies r1 + 1) (r_series r1)
     else if String.eqb l "series"
     then mkRequests (r_total r1) (r_movies r1) (r_series r1 + 1)
     else r1) s.

(** The totals [getStats] derives from the counters. *)
Definition prefetchTotal (s : stats) : Z := p_hits (prefetch s) + p_misses (prefetch s).
Definition instantTotal (s : stats) : Z := i_hits (instant s) + i_misses (instant s).
Definition triageTotal (s : stats) : Z :=
  t_verified (triage s) + t_unverified (triage s) + t_blocked (triage s)
  + t_errors (triage s).

(** The calls of the module. *)
Inductive call :=
| ResetStats (now : Z)
| PrefetchHit | PrefetchMiss | PrefetchStarted
| InstantHit | InstantMiss
| InstantHistoryHit (count : Z)
| TriageResult (status : option string)
| TriageBatch (decisions : option (list (option string)))
| Download (durationMs : Z) (success : bool)
| BlocklistHit (type : option string)
| Request (type : option string).

Definition apply (c : call) (s : stats) : stats :=
  match c with
  | ResetStats now => resetStats now
  | PrefetchHit => trackPrefetchHit s
  | PrefetchMiss => trackPrefetchMiss s
  | PrefetchStarted => trackPrefetchStarted s
  | InstantHit => trackInstantHit s
  | InstantMiss => trackInstantMiss s
  | InstantHistoryHit n => trackInstantHistoryHit n s
  | TriageResult st => trackTriageResult st s
  | TriageBatch ds => trackTriageBatch ds s
  | Download d ok => trackDownload d ok s
  | BlocklistHit t => trackBlocklistHit t s
  | Request t => trackRequest t s
  end.

Definition applyAll (cs : list call) (s : stats) : stats :=
  fold_left (λ acc c, apply c acc) cs s.

End Stats.

(* ===================================================================== *)
(** ** Path and token helpers (utils/parsers.js) *)
(* ===================================================================== *)

Module Parsers.

(** [url.replace(/\/+$/, '')] *)
Fixpoint stripTrailingSlashes (url : string) : string :=
  match url with
  | EmptyString => EmptyString
  | String c s' =>
      let r := stripTrailingSlashes s' in
      if Ascii.eqb c "/" && String.eqb r "" then EmptyString else String c r
  end.

(** [s.replace(/\\/g, '/')] *)
Fixpoint slashes (s : string) : string :=
  match s with
  | EmptyString => EmptyString
  | String c s' => String (if Ascii.eqb c "\" then "/"%char else c) (slashes s')
  end.

Definition normalizeNzbdavPath (pathValue : option string) : string :=
  if negb (Js.truthyStr pathValue) then "/"
  else
    let normalized := slashes (default "" pathValue) in
    if String.prefix "/" normalized then normalized else "/" +:+ normalized.

(** No backslash is left in [s]. *)
Definition noBackslash (s : string) : bool :=
  HistoryMatching.allChars (λ c, negb (Ascii.eqb c "\")) s.

(** [normalizeIndexerToken]; [value] is the token as [String(value)] prints
    it, [None] for [null] / [undefined]. *)
Definition normalizeIndexerToken (value : option string) : option string :=
  match value with
  | None => None
  | Some v =>
      let token := Js.toLowerCase (HistoryMatching.trim v) in
      if (0 <? String.length token)%nat then Some token else None
  end.

(** A search result, as far as the indexer filter reads it. *)
Record nzbResult := mkNzbResult { indexerId : option string; indexer : option string }.

(** [nzbMatchesIndexer]; [tokenSet] is [None] when the set is missing. *)
Definition nzbMatchesIndexer (result : option nzbResult) (tokenSet : option (gset string))
  : bool :=
  match tokenSet with
  | None => true
  | Some tokens =>
      if (size tokens =? 0)%nat then true
      else
        let idToken := normalizeIndexerToken (result ≫= indexerId) in
        let nameToken := normalizeIndexerToken (result ≫= indexer) in
        match idToken with
        | Some t => bool_decide (t ∈ tokens)
        | None => false
        end ||
        match nameToken with
        | Some t => bool_decide (t ∈ tokens)
        | None => false
        end
  end.

(** A search result with its id and name replaced by their tokens. *)
Definition canonical (result : option nzbResult) : option nzbResult :=
  (λ r, mkNzbResult (normalizeIndexerToken (indexerId r))
                    (normalizeIndexerToken (indexer r))) <$> result.
End Parsers.

(** Restart and persistence of the instant playback cache. *)
Module InstantCachePersistence.
Import InstantCache.



(** The episode a key is built for: the season and episode numbers when
    both are finite, nothing otherwise. *)
Definition finiteEpisode (requestedEpisode : option episode) : option (Z * Z) :=
  match requestedEpisode with
  | Some {| season := Some s; episodeNo := Some e |} => Some (s, e)
  | _ => None
  end.

(** The part of a key that follows the type and the id. *)
Definition episodeSuffix (ep : option (Z * Z)) : string :=
  match ep with
  | Some (s, e) => ":" +:+ "S" +:+ pretty s +:+ "E" +:+ pretty e
  | None => ""
  end.

(** No capital E occurs in [s]. *)
Definition noE (s : string) : bool :=
  HistoryMatching.allChars (λ c, negb (Ascii.eqb c "E")) s.

End InstantCachePersistence.

(** The title region of a token list. *)
Module HistoryMatchingRegion.
Import HistoryMatching HistoryMatchingSpec.



End HistoryMatchingRegion.

(** Sample settings and probe results for the health report. *)
Module HealthSamples.
Import Health.

(** Only the TMDb key is set. *)
Definition onlyTmdb : config :=
  mkConfig None None None None None None None None (Some "tmdb-key") None.

(** Cinemeta and TMDb answer; the other probes are not made. *)
Definition answering : network :=
  mkNetwork (Threw "unused", 0) (Threw "unused", 0) (Threw "unused", 0)
            (Responded (mkResponse 200 true false None), 35)
            (Responded (mkResponse 200 false true None), 48)
            (NntpReady, 0) true.

End HealthSamples.

(* ===================================================================== *)
(** ** Properties of the NZBDav stream mount cache *)
(* ===================================================================== *)

Module NzbdavCacheFacts.
Import NzbdavCache NzbdavCacheSpec.


(** Cleanup only removes entries. *)
Lemma cleanup_lookup_Some now st k e :
  nzbdavStreamCache (cleanupNzbdavCache now st) !! k = Some e →
  nzbdavStreamCache st !! k = Some e.
Proof.
  unfold cleanupNzbdavCache.
  destruct (NZBDAV_CACHE_TTL_MS st <=? 0); [done|]. simpl.
  intros H. by apply map_lookup_filter_Some in H as [H _].
Qed.

Lemma cleanup_builderCalls now st :
  builderCalls (cleanupNzbdavCache now st) = builderCalls st.
Proof. unfold cleanupNzbdavCache. by destruct (_ <=? _). Qed.


Lemma cleanup_ttl now st :
  NZBDAV_CACHE_TTL_MS (cleanupNzbdavCache now st) = NZBDAV_CACHE_TTL_MS st.
Proof. unfold cleanupNzbdavCache. by destruct (_ <=? _). Qed.

(** An entry that has not expired survives cleanup. *)
Lemma cleanup_keeps_fresh now st k e :
  nzbdavStreamCache st !! k = Some e →
  expired (entry_expiresAt e) now = false →
  nzbdavStreamCache (cleanupNzbdavCache now st) !! k = Some e.
Proof.
  intros H Hx. unfold cleanupNzbdavCache.
  destruct (NZBDAV_CACHE_TTL_MS st <=? 0); [done|]. simpl.
  apply map_lookup_filter_Some. by split.
Qed.


(** *** The in-flight invariant *)










(** A call that finds no answering entry invokes the builder and stores
    the pending entry of the new promise. *)
Lemma call_starts now k st :
  (nzbdavStreamCache (cleanupNzbdavCache now st) !! k = None ∨
   ∃ e s x, nzbdavStreamCache (cleanupNzbdavCache now st) !! k
            = Some (TimeoutPending e s x)) →
  let r := getOrCreateNzbdavStream now k st in
  r.1 = Started (length (builderCalls st)) ∧
  builderCalls r.2 = (builderCalls st ++ [k])%list ∧
  nzbdavStreamCache r.2 !! k = Some (Pending (length (builderCalls st))).
Proof.
  intros H. unfold getOrCreateNzbdavStream.
  assert (∀ c, nzbdavStreamCache
            (mkState (<[k := Pending (length (builderCalls st))]> c)
               (failedDownloadUrlCache (cleanupNzbdavCache now st))
               (NZBDAV_CACHE_TTL_MS (cleanupNzbdavCache now st))
               (NEGATIVE_CACHE_TTL_MS (cleanupNzbdavCache now st))
               (builderCalls st ++ [k]) (settled (cleanupNzbdavCache now st))) !! k
            = Some (Pending (length (builderCalls st)))) as Hl.
  { intros c. simpl. by rewrite lookup_insert_eq. }
  destruct H as [E|(e & s & x & E)]; rewrite E; simpl;
    rewrite cleanup_builderCalls; (split; [done|split; [done|]]);
    by rewrite lookup_insert_eq.
Qed.



(** C2 (amended). Error-path transitions: a call for a key whose entry is
    failed and not expired re-raises the cached error and invokes no
    builder; an attempt that fails with a timeout error which is not a
    flagged backend failure leaves a timeout_pending entry; a call for a
    timeout_pending key starts a new attempt. *)
Theorem error_path_transitions (now : Z) (key : string) (p : nat)
    (error : thrown) (st : state) :
  (∀ x, nzbdavStreamCache st !! key = Some (Failed error x) →
        expired x now = false →
        getOrCreateNzbdavStream now key st = (Throw error, cleanupNzbdavCache now st) ∧
        builderCalls (cleanupNzbdavCache now st) = builderCalls st) ∧
  (flagged error = false → isTimeoutError error = true →
   nzbdavStreamCache (settle now key p (Rejected error) st) !! key
     = Some (TimeoutPending error now (now + TIMEOUT_PENDING_TTL_MS))) ∧
  (∀ s x, nzbdavStreamCache st !! key = Some (TimeoutPending error s x) →
          let r := getOrCreateNzbdavStream now key st in
          r.1 = Started (length (builderCalls st)) ∧
          builderCalls r.2 = (builderCalls st ++ [key])%list ∧
          nzbdavStreamCache r.2 !! key = Some (Pending (length (builderCalls st)))).
Proof.
  split; [|split].
  - intros x Hf Hx. split; [|apply cleanup_builderCalls].
    unfold getOrCreateNzbdavStream.
    by rewrite (cleanup_keeps_fresh now _ _ _ Hf Hx).
  - intros Hfl Ht. unfold settle. simpl. rewrite Hfl, Ht.
    by rewrite lookup_insert_eq.
  - intros s x Ht. apply call_starts.
    destruct (nzbdavStreamCache (cleanupNzbdavCache now st) !! key) as [e|] eqn:E;
      [|by left].
    right. apply cleanup_lookup_Some in E. rewrite Ht in E. injection E as <-.
    eauto.
Qed.

Lemma error_path_transitions_witness :
  let st1 := (getOrCreateNzbdavStream 1000 "k" initial).2 in
  let st2 := settle 2000 "k" 0 (Rejected socketTimeout) st1 in
  nzbdavStreamCache st2 !! "k"
    = Some (TimeoutPending socketTimeout 2000 602000) ∧
  (getOrCreateNzbdavStream 3000 "k" st2).1 = Started 1%nat.
Proof.
  intros st1 st2.
  destruct (error_path_transitions 2000 "k" 0%nat socketTimeout st1) as (_ & H2 & _).
  destruct (error_path_transitions 3000 "k" 0%nat socketTimeout st2) as (_ & _ & H3).
  split.
  - exact (H2 eq_refl eq_refl).
  - exact (proj1 (H3 2000 602000 (H2 eq_refl eq_refl))).
Defined.

(** C2 as stated fails: a flagged backend failure whose message mentions a
    timeout is a timeout error for [isTimeoutError], and the attempt that
    fails with it leaves a failed entry, not a timeout_pending one. *)
Lemma error_path_counterexample :
  let st1 := (getOrCreateNzbdavStream 1000 "k" initial).2 in
  isTimeoutError backendTimeout = true ∧
  nzbdavStreamCache (settle 2000 "k" 0 (Rejected backendTimeout) st1) !! "k"
    = Some (Failed backendTimeout (Some 86402000)).
Proof. split; reflexivity. Qed.

(** C10. An attempt that fails with an error that is neither a flagged
    backend failure nor a timeout error leaves no entry for the key: the
    error is not cached, and the next call for the key invokes the builder
    again instead of re-raising. *)
Theorem other_error_not_cached (now now' : Z) (key : string) (p : nat)
    (error : thrown) (st : state) :
  flagged error = false → isTimeoutError error = false →
  let st' := settle now key p (Rejected error) st in
  nzbdavStreamCache st' !! key = None ∧
  (getOrCreateNzbdavStream now' key st').1 = Started (length (builderCalls st)) ∧
  builderCalls (getOrCreateNzbdavStream now' key st').2 = (builderCalls st ++ [key])%list.
Proof.
  intros Hfl Ht st'.
  assert (nzbdavStreamCache st' !! key = None) as Hn.
  { subst st'. unfold settle. simpl. rewrite Hfl, Ht. apply lookup_delete_eq. }
  split; [done|].
  assert (nzbdavStreamCache (cleanupNzbdavCache now' st') !! key = None) as Hc.
  { destruct (nzbdavStreamCache (cleanupNzbdavCache now' st') !! key) eqn:E; [|done].
    apply cleanup_lookup_Some in E. congruence. }
  destruct (call_starts now' key st' (or_introl Hc)) as (H1 & H2 & _).
  split; [exact H1|exact H2].
Qed.

Lemma other_error_not_cached_witness :
  let st1 := (getOrCreateNzbdavStream 1000 "k" initial).2 in
  let st2 := settle 2000 "k" 0 (Rejected parseError) st1 in
  nzbdavStreamCache st2 !! "k" = None ∧
  (getOrCreateNzbdavStream 3000 "k" st2).1 = Started 1%nat.
Proof.
  intros st1 st2.
  destruct (other_error_not_cached 2000 3000 "k" 0%nat parseError st1 eq_refl eq_refl)
    as (H1 & H2 & _).
  split; [exact H1|exact H2].
Defined.

(** *** Zero TTLs *)

Lemma cleanup_disabled now st :
  NZBDAV_CACHE_TTL_MS st = 0 → cleanupNzbdavCache now st = st.
Proof. intros H. unfold cleanupNzbdavCache. by rewrite H. Qed.

(** C8 (amended). Zero TTLs diverge. With a negative-cache TTL of zero
    [markDownloadUrlFailed] stores nothing, so a URL that was not stored
    before is never reported by [isDownloadUrlFailed]. With a main TTL of
    zero the ready and failed entries written by [getOrCreateNzbdavStream]
    carry no expiry and the pending entry has none, the timeout_pending
    entry carries its fixed ten minute expiry, and expiry cleanup removes
    nothing: at any later time the ready entry still answers the call and
    the failed entry still re-raises. *)
Theorem zero_ttl_semantics (now later : Z) (key url reason : string)
    (errCode : option string) (p : nat) (st : state) :
  (NEGATIVE_CACHE_TTL_MS st = 0 →
     markDownloadUrlFailed now url reason errCode st = st ∧
     (failedDownloadUrlCache st !! url = None →
      (isDownloadUrlFailed later url
         (markDownloadUrlFailed now url reason errCode st)).1 = None)) ∧
  (NZBDAV_CACHE_TTL_MS st = 0 →
     cleanupNzbdavCache later st = st ∧
     (∀ p', (getOrCreateNzbdavStream now key st).1 = Started p' →
            ∃ e, nzbdavStreamCache (getOrCreateNzbdavStream now key st).2 !! key = Some e ∧
                 entry_status e = pending ∧ entry_expiresAt e = None) ∧
     (∀ data,
        let st' := settle now key p (Resolved data) st in
        nzbdavStreamCache st' !! key = Some (Ready data None) ∧
        getOrCreateNzbdavStream later key st' = (ReturnData data, st')) ∧
     (∀ error, flagged error = true →
        let st' := settle now key p (Rejected error) st in
        nzbdavStreamCache st' !! key = Some (Failed error None) ∧
        getOrCreateNzbdavStream later key st' = (Throw error, st')) ∧
     (∀ error, flagged error = false → isTimeoutError error = true →
        let st' := settle now key p (Rejected error) st in
        nzbdavStreamCache st' !! key
          = Some (TimeoutPending error now (now + TIMEOUT_PENDING_TTL_MS)) ∧
        cleanupNzbdavCache later st' = st')).
Proof.
  split.
  - intros Hz.
    assert (markDownloadUrlFailed now url reason errCode st = st) as Hm.
    { unfold markDownloadUrlFailed. by rewrite Hz. }
    split; [done|]. intros Hn. rewrite Hm.
    unfold isDownloadUrlFailed, cleanupNegativeCache. rewrite Hz. simpl.
    by rewrite Hn.
  - intros Hz. split; [by apply cleanup_disabled|].
    split; [|split; [|split]].
    + intros p' Hst. exists (Pending p'). unfold getOrCreateNzbdavStream in *.
      destruct (nzbdavStreamCache (cleanupNzbdavCache now st) !! key) as [[]|];
        simpl in *; try discriminate; injection Hst as <-;
        by rewrite lookup_insert_eq.
    + intros data st'.
      assert (nzbdavStreamCache st' !! key = Some (Ready data None)) as Hr.
      { subst st'. unfold settle, ttlExpiry. simpl. rewrite Hz. simpl.
        by rewrite lookup_insert_eq. }
      split; [done|]. unfold getOrCreateNzbdavStream.
      rewrite (cleanup_disabled later st') by done. by rewrite Hr.
    + intros error Hfl st'.
      assert (nzbdavStreamCache st' !! key = Some (Failed error None)) as Hr.
      { subst st'. unfold settle, ttlExpiry. simpl. rewrite Hfl, Hz. simpl.
        by rewrite lookup_insert_eq. }
      split; [done|]. unfold getOrCreateNzbdavStream.
      rewrite (cleanup_disabled later st') by done. by rewrite Hr.
    + intros error Hfl Ht st'. split.
      * subst st'. unfold settle. simpl. rewrite Hfl, Ht.
        by rewrite lookup_insert_eq.
      * by apply cleanup_disabled.
Qed.

Lemma zero_ttl_semantics_witness :
  let data := mkStreamData "/view/movie.mkv" "Movie" in
  let st1 := (getOrCreateNzbdavStream 1000 "k" zeroTtl).2 in
  let st2 := settle 2000 "k" 0 (Resolved data) st1 in
  markDownloadUrlFailed 1000 "http://x/1.nzb" "failed" None st1 = st1 ∧
  (isDownloadUrlFailed 5000 "http://x/1.nzb"
     (markDownloadUrlFailed 1000 "http://x/1.nzb" "failed" None st1)).1 = None ∧
  nzbdavStreamCache st2 !! "k" = Some (Ready data None) ∧
  getOrCreateNzbdavStream 999999999999 "k" st2 = (ReturnData data, st2).
Proof.
  intros data st1 st2.
  destruct (zero_ttl_semantics 1000 5000 "k" "http://x/1.nzb" "failed" None 0%nat st1)
    as (Hneg & _).
  destruct (zero_ttl_semantics 2000 999999999999 "k" "http://x/1.nzb" "failed"
              None 0%nat st1) as (_ & Hmain).
  destruct (Hneg eq_refl) as (H1 & H2).
  destruct (Hmain eq_refl) as (_ & _ & H3 & _).
  split; [exact H1|]. split; [exact (H2 eq_refl)|]. exact (H3 data).
Defined.

(** C8 as stated fails: with a main TTL of zero, the entry written for an
    attempt that timed out carries an expiry. *)
Lemma zero_ttl_counterexample :
  let st1 := (getOrCreateNzbdavStream 1000 "k" zeroTtl).2 in
  NZBDAV_CACHE_TTL_MS st1 = 0 ∧
  entry_expiresAt <$>
    (nzbdavStreamCache (settle 2000 "k" 0 (Rejected socketTimeout) st1) !! "k")
    = Some (Some 602000).
Proof. split; reflexivity. Qed.

End NzbdavCacheFacts.

(* ===================================================================== *)
(** ** Properties of the instant playback cache *)
(* ===================================================================== *)

Module InstantCacheFacts.
Import InstantCache InstantCacheSpec.
(** An entry older than a positive TTL is removed by the lookup, in memory
    and on disk, and the lookup returns nothing. *)
Lemma lookup_expired ttl now type id ep cache entry t st :
  loadedWith cache st →
  cache !! buildInstantCacheKey type id ep = Some entry →
  cachedAt entry = Some t → t ≠ 0 → 0 < ttl → ttl < now - t →
  let r := getInstantCacheEntry ttl now type id ep st in
  r.1 = None ∧
  instantCache r.2 = Some (delete (buildInstantCacheKey type id ep) cache) ∧
  disk r.2 = Json (delete (buildInstantCacheKey type id ep) cache).
Proof.
  unfold loadedWith. intros Hl Hk Hc Ht Httl Hold.
  unfold getInstantCacheEntry, getInstantCache. rewrite Hl, Hk, Hc. simpl.
  assert (negb (t =? 0) = true) as -> by (apply negb_true_iff; lia).
  assert ((0 <? ttl) = true) as -> by lia.
  assert ((ttl <? now - t) = true) as -> by lia.
  simpl. by unfold saveInstantCache.
Qed.

(** An entry no older than the TTL is returned and the cache is left as it
    is. *)
Lemma lookup_fresh ttl now type id ep cache entry t st :
  loadedWith cache st →
  cache !! buildInstantCacheKey type id ep = Some entry →
  cachedAt entry = Some t → now - t ≤ ttl →
  getInstantCacheEntry ttl now type id ep st = (Some entry, st).
Proof.
  unfold loadedWith. intros Hl Hk Hc Hyoung.
  unfold getInstantCacheEntry, getInstantCache. rewrite Hl, Hk, Hc. simpl.
  assert ((ttl <? now - t) = false) as -> by lia.
  by rewrite andb_false_r.
Qed.

(** The lookup itself treats a TTL of zero as "never expire". *)
Lemma lookup_ttl_zero now type id ep cache entry st :
  loadedWith cache st →
  cache !! buildInstantCacheKey type id ep = Some entry →
  getInstantCacheEntry 0 now type id ep st = (Some entry, st).
Proof.
  unfold loadedWith. intros Hl Hk.
  unfold getInstantCacheEntry, getInstantCache. rewrite Hl, Hk. simpl.
  by rewrite andb_false_r.
Qed.

(** But no configuration yields a TTL of zero: the constant is positive
    whatever [INSTANT_CACHE_TTL_DAYS] holds. *)
Lemma ttl_positive raw : 0 < INSTANT_CACHE_TTL_MS raw.
Proof.
  unfold INSTANT_CACHE_TTL_MS, DEFAULT_TTL_MS.
  destruct raw as [r|]; [|lia]. destruct (0 <? r) eqn:E; lia.
Qed.

(** C4, the configured zero. With [INSTANT_CACHE_TTL_DAYS=0] the constant
    is the seven day default, not zero: an entry saved at time 1000 is
    still returned seven days later and is removed, in memory and on disk,
    by the lookup one millisecond after that. *)
Theorem configured_zero_ttl_expires :
  let ttl := INSTANT_CACHE_TTL_MS (Some 0) in
  ttl = 604800000 ∧
  (getInstantCacheEntry ttl 604801000 "movie" "tt0133093" None (savedAt 1000)).1
    = Some (mkEntry "SABnzbd_nzo_1" "The.Matrix.1999" (Some 1000)) ∧
  (getInstantCacheEntry ttl 604801001 "movie" "tt0133093" None (savedAt 1000)).1
    = None ∧
  instantCache
    (getInstantCacheEntry ttl 604801001 "movie" "tt0133093" None (savedAt 1000)).2
    = Some ∅ ∧
  disk (getInstantCacheEntry ttl 604801001 "movie" "tt0133093" None (savedAt 1000)).2
    = Json ∅.
Proof. repeat split; vm_compute; reflexivity. Qed.

End InstantCacheFacts.

(* ===================================================================== *)
(** ** Properties of the WebSocket client *)
(* ===================================================================== *)

Module NzbdavWsFacts.
Import NzbdavWs NzbdavWsSpec.
Lemma handleMessage_tracked s id w st :
  slotId s = Some id → id ≠ "" → waiters st !! id = Some w →
  handleMessage (historyFrame s) st =
    let st1 := with_waiters (delete id (waiters st)) (armed st ∖ {[timer w]})
                 (outcomes st) st in
    if String.eqb (slotStatus s) "completed" then
      with_waiters (waiters st1) (armed st1)
        (settleOnce (promise w) (ResolvedWith s) (outcomes st1)) st1
    else if String.eqb (slotStatus s) "failed" then
      with_waiters (waiters st1) (armed st1)
        (settleOnce (promise w)
           (RejectedFailure
              (mkFailure ("[NZBDAV] NZB failed: " +:+ slotFailMessage s) true
                         (slotFailMessage s) id))
           (outcomes st1)) st1
    else st1.
Proof.
  intros Hid Hne Hw. unfold handleMessage, historyFrame.
  rewrite bool_decide_true by done. simpl. rewrite Hid. simpl.
  rewrite (proj2 (String.eqb_neq _ _) Hne). simpl. by rewrite Hw.
Qed.

(** A "completed" event resolves the waiter of a tracked job with the
    slot. *)
Lemma handleMessage_completed s id w st :
  slotId s = Some id → id ≠ "" → waiters st !! id = Some w →
  outcomes st !! promise w = None →
  slotStatus s = "completed" →
  outcomes (handleMessage (historyFrame s) st) !! promise w = Some (ResolvedWith s).
Proof.
  intros Hid Hne Hw Ho Hs. rewrite (handleMessage_tracked s id w st) by done.
  rewrite Hs. simpl. unfold settleOnce. rewrite Ho. by rewrite lookup_insert_eq.
Qed.

(** A "failed" event rejects the waiter with a flagged failure that
    carries the failure message of the backend. *)
Lemma handleMessage_failed s id w st :
  slotId s = Some id → id ≠ "" → waiters st !! id = Some w →
  outcomes st !! promise w = None →
  slotStatus s = "failed" →
  ∃ e, outcomes (handleMessage (historyFrame s) st) !! promise w
         = Some (RejectedFailure e) ∧
       isNzbdavFailure e = true ∧ failureMessage e = slotFailMessage s ∧
       err_nzoId e = id.
Proof.
  intros Hid Hne Hw Ho Hs. rewrite (handleMessage_tracked s id w st) by done.
  rewrite Hs. simpl. unfold settleOnce. rewrite Ho.
  eexists. rewrite lookup_insert_eq. by repeat split.
Qed.

(** Any other status settles nothing, but the waiter is unregistered and
    its deadline timer cleared all the same. *)
Lemma handleMessage_other s id w st :
  slotId s = Some id → id ≠ "" → waiters st !! id = Some w →
  slotStatus s ≠ "completed" → slotStatus s ≠ "failed" →
  let st' := handleMessage (historyFrame s) st in
  outcomes st' = outcomes st ∧ waiters st' !! id = None ∧ timer w ∉ armed st'.
Proof.
  intros Hid Hne Hw H1 H2. rewrite (handleMessage_tracked s id w st) by done.
  rewrite (proj2 (String.eqb_neq _ _) H1), (proj2 (String.eqb_neq _ _) H2). simpl.
  split; [done|]. split; [apply lookup_delete_eq|].
  apply not_elem_of_difference. right. by apply elem_of_singleton.
Qed.

(** C3, the other statuses. A caller waits for a job (promise 0, deadline
    timer 1) and an event with status "extracting" arrives for it. The
    promise stays unsettled, but the waiter is no longer registered and
    its deadline timer is no longer armed: the "completed" event that
    follows resolves nothing and the deadline never rejects. *)
Theorem other_status_unregisters_waiter :
  let st1 := onMessage (historyFrame extracting) waiting in
  let st2 := onMessage (historyFrame completed) st1 in
  let st3 := onWaiterTimeout "SABnzbd_nzo_7" 0 1 st2 in
  waiters waiting !! "SABnzbd_nzo_7" = Some (mkWaiter 0 1) ∧
  bool_decide (1%nat ∈ armed waiting) = true ∧
  outcomes st1 !! 0%nat = None ∧
  waiters st1 !! "SABnzbd_nzo_7" = None ∧
  bool_decide (1%nat ∈ armed st1) = false ∧
  outcomes st2 !! 0%nat = None ∧
  outcomes st3 !! 0%nat = None.
Proof. repeat split; vm_compute; reflexivity. Qed.

(** *** Reconnect backoff *)







End NzbdavWsFacts.

(* ===================================================================== *)
(** ** Properties of the history matcher *)
(* ===================================================================== *)

Module HistoryMatchingFacts.
Import HistoryMatching HistoryMatchingSpec.

(** *** Similarity *)

Lemma has_elem_of (set : list string) (w : string) : has set w = true ↔ w ∈ set.
Proof.
  unfold has. rewrite existsb_exists. split.
  - intros (x & Hin & Heq). apply String.eqb_eq in Heq. subst.
    by apply list_elem_of_In.
  - intros Hin. exists w. split; [by apply list_elem_of_In|apply String.eqb_refl].
Qed.

Lemma wordSet_toSet (l : list string) : wordSet (toSet l) = wordSet l.
Proof.
  apply set_eq. intros x. unfold wordSet, toSet.
  by rewrite !elem_of_list_to_set, elem_of_remove_dups.
Qed.

Lemma toSet_size (l : list string) : length (toSet l) = size (wordSet l).
Proof.
  rewrite <- wordSet_toSet. unfold wordSet. symmetry.
  apply size_list_to_set, NoDup_remove_dups.
Qed.

Lemma intersection_count (l1 l2 : list string) :
  length (filter (λ w, has (toSet l2) w = true) (toSet l1))
  = size (wordSet l1 ∩ wordSet l2).
Proof.
  rewrite <- (size_list_to_set (C := gset string)).
  - f_equal. apply set_eq. intros x.
    rewrite elem_of_list_to_set, list_elem_of_filter, has_elem_of.
    unfold toSet, wordSet.
    rewrite elem_of_intersection, !elem_of_list_to_set, !elem_of_remove_dups.
    tauto.
  - apply NoDup_filter, NoDup_remove_dups.
Qed.

Lemma size_union_inter (A B : gset string) :
  (size A + size B - size (A ∩ B))%nat = size (A ∪ B).
Proof.
  pose proof (size_union_alt A B) as Hu.
  assert (A ∩ B ## B ∖ A) as Hd.
  { intros x. rewrite elem_of_intersection, elem_of_difference. tauto. }
  pose proof (size_union (A ∩ B) (B ∖ A) Hd) as Hb.
  assert ((A ∩ B) ∪ (B ∖ A) = B) as HB.
  { apply set_eq. intros x.
    rewrite elem_of_union, elem_of_intersection, elem_of_difference.
    destruct (decide (x ∈ A)); tauto. }
  rewrite HB in Hb. lia.
Qed.

Lemma ratio_zero (n : nat) : (ratio 0 n == 0)%Q.
Proof. unfold ratio. simpl. unfold Qdiv. apply Qmult_0_l. Qed.


(** The counting loop of [calculateWordSimilarity] computes the Jaccard
    similarity of the two word sets. *)
Lemma inter_empty_l (B : gset string) : wordSet [] ∩ B = ∅.
Proof.
  apply set_eq. intros x. rewrite elem_of_intersection. unfold wordSet. simpl.
  split; [by intros [H _]|]. intros H. by apply elem_of_empty in H.
Qed.

Lemma inter_empty_r (A : gset string) : A ∩ wordSet [] = ∅.
Proof.
  apply set_eq. intros x. rewrite elem_of_intersection. unfold wordSet. simpl.
  split; [by intros [_ H]|]. intros H. by apply elem_of_empty in H.
Qed.

Lemma union_size_pos (w : string) (l : list string) (B : gset string) :
  size (wordSet (w :: l) ∪ B) ≠ 0%nat.
Proof.
  apply size_non_empty_iff. intros Heq.
  apply (not_elem_of_empty (C := gset string) w). rewrite <- Heq.
  apply elem_of_union. left. unfold wordSet. simpl.
  apply elem_of_union. left. by apply elem_of_singleton.
Qed.

(** The counting loop of [calculateWordSimilarity] computes the Jaccard
    similarity of the two word sets. *)
Lemma calculateWordSimilarity_jaccard (words1 words2 : list string) :
  (calculateWordSimilarity words1 words2 == jaccard (wordSet words1) (wordSet words2))%Q.
Proof.
  unfold calculateWordSimilarity, jaccard.
  rewrite intersection_count, !toSet_size, size_union_inter.
  destruct words1 as [|w1 l1]; simpl.
  { rewrite inter_empty_l, size_empty. destruct (decide _); [reflexivity|].
    symmetry. apply ratio_zero. }
  destruct words2 as [|w2 l2]; simpl.
  { rewrite inter_empty_r, size_empty. destruct (decide _); [reflexivity|].
    symmetry. apply ratio_zero. }
  pose proof (union_size_pos w1 l1 (wordSet (w2 :: l2))) as Hne.
  destruct (decide _) as [|_]; [done|].
  assert ((0 <? size (wordSet (w1 :: l1) ∪ wordSet (w2 :: l2)))%nat = true) as ->
    by (apply Nat.ltb_lt; lia).
  reflexivity.
Qed.




(** *** Tokenization on sample titles *)

Example tokenize_folds_separators :
  tokenize "  The.Movie_(2019) [x265]  - grp.MKV " = ["The"; "Movie"; "2019"; "x265"; "grp"].
Proof. reflexivity. Qed.

Example parse_scene_release :
  parseReleaseTokens "Show.S01E01.1080p.WEB.x264-GROUP"
  = mkParsed ["show"; "s01e01"] None (Some "1080p") (Some "web") (Some "x264")
             (Some "group") "Show.S01E01.1080p.WEB.x264-GROUP".
Proof. reflexivity. Qed.

Example parse_keeps_short_number :
  parseReleaseTokens "28.Days.Later.2002.1080i.BluRay.mkv"
  = mkParsed ["28"; "days"; "later"] (Some "2002") (Some "1080p") (Some "bluray") None
             None "28.Days.Later.2002.1080i.BluRay.mkv".
Proof. reflexivity. Qed.

Example similarity_counts_distinct_words :
  calculateWordSimilarity ["a"; "b"; "a"] ["b"; "c"] = 1 # 3.
Proof. reflexivity. Qed.

(** *** Release group *)









(** *** Matching policy *)

Lemma insertDesc_perm (x : matchItem) (l : list matchItem) :
  insertDesc x l ≡ₚ x :: l.
Proof.
  induction l as [|y l IH]; simpl; [done|].
  destruct (Qle_bool (similarity y) (similarity x)); [done|].
  rewrite IH. apply Permutation_swap.
Qed.

Lemma sortDesc_perm (l : list matchItem) : sortDesc l ≡ₚ l.
Proof.
  induction l as [|x l IH]; simpl; [done|].
  rewrite insertDesc_perm. by rewrite IH.
Qed.




Lemma parse_empty_title : titleWords (parseReleaseTokens "") = [].
Proof. reflexivity. Qed.

(** Past its early returns, the function is the sorted list of the
    entries that pass the match test. *)
Lemma findMatchingHistoryItems_unfold searchTitle historyMap opts :
  titleWords (parseReleaseTokens searchTitle) ≠ [] →
  findMatchingHistoryItems searchTitle historyMap opts
  = sortDesc
      (filter (λ m, isMatch (default DEFAULT_MIN_SIMILARITY (minSimilarity opts))
                            (default false (requireAllWords opts)) (details m) = true)
              (map (compare (parseReleaseTokens searchTitle)) historyMap)).
Proof.
  intros Hw. unfold findMatchingHistoryItems.
  destruct (String.eqb searchTitle "") eqn:E.
  { apply String.eqb_eq in E. subst. by rewrite parse_empty_title in Hw. }
  simpl. destruct historyMap as [|kv h]; [done|]. simpl.
  destruct (titleWords (parseReleaseTokens searchTitle)); done.
Qed.




End HistoryMatchingFacts.

(* ===================================================================== *)
(** ** Further properties of the NZBDav stream mount cache *)
(* ===================================================================== *)

Module NzbdavCacheMoreFacts.
Import NzbdavCache NzbdavCacheSpec NzbdavCacheStats NzbdavCacheFacts.

Lemma expired_mono x now later :
  now ≤ later → expired x now = true → expired x later = true.
Proof.
  unfold expired. destruct x as [t|]; simpl; [|done].
  intros Hle H. apply andb_true_iff in H as [H1 H2].
  apply andb_true_iff. split; [done|]. apply Z.leb_le in H2. apply Z.leb_le. lia.
Qed.

Lemma expired_at t now : t ≠ 0 → expired (Some t) now = (t <=? now).
Proof.
  intros Ht. unfold expired. simpl.
  by rewrite (proj2 (Z.eqb_neq t 0) Ht).
Qed.

Lemma cleanup_removes_expired now st k e :
  0 < NZBDAV_CACHE_TTL_MS st →
  nzbdavStreamCache st !! k = Some e →
  expired (entry_expiresAt e) now = true →
  nzbdavStreamCache (cleanupNzbdavCache now st) !! k = None.
Proof.
  intros Httl Hk Hx. unfold cleanupNzbdavCache.
  rewrite (proj2 (Z.leb_gt _ _) Httl). simpl.
  apply map_lookup_filter_None. right. intros e' He'. simpl.
  rewrite Hk in He'. injection He' as <-. by rewrite Hx.
Qed.

(** X1. The outcome cached for a key answers later calls until its expiry:
    with a positive TTL, after an attempt settled at [now] with data or with
    a flagged backend failure, a call before [now + TTL] returns the data
    (or re-raises the failure) without invoking the builder, and a call at
    or after [now + TTL] starts a new attempt. *)
Theorem cached_outcome_until_expiry (now later : Z) (key : string) (p : nat)
    (o : outcome) (st : state) :
  0 < NZBDAV_CACHE_TTL_MS st → 0 ≤ now →
  (∀ e, o = Rejected e → flagged e = true) →
  let st' := settle now key p o st in
  let answer := match o with Resolved d => ReturnData d | Rejected e => Throw e end in
  (later < now + NZBDAV_CACHE_TTL_MS st →
     (getOrCreateNzbdavStream later key st').1 = answer ∧
     builderCalls (getOrCreateNzbdavStream later key st').2 = builderCalls st) ∧
  (now + NZBDAV_CACHE_TTL_MS st ≤ later →
     (getOrCreateNzbdavStream later key st').1 = Started (length (builderCalls st)) ∧
     builderCalls (getOrCreateNzbdavStream later key st').2
       = (builderCalls st ++ [key])%list).
Proof.
  intros Httl Hnow Hfl st' answer.
  set (x := now + NZBDAV_CACHE_TTL_MS st).
  assert (∃ e, nzbdavStreamCache st' !! key = Some e ∧ entry_expiresAt e = Some x ∧
               match e with
               | Ready d _ => answer = ReturnData d
               | Failed err _ => answer = Throw err
               | _ => False
               end) as (e & He & Hx & Hans).
  { subst st' answer. unfold settle, ttlExpiry. simpl.
    rewrite (proj2 (Z.ltb_lt _ _) Httl).
    destruct o as [d|err].
    - eexists. rewrite lookup_insert_eq. by split.
    - rewrite (Hfl err eq_refl). eexists. rewrite lookup_insert_eq. by split. }
  assert (x ≠ 0) as Hx0 by (subst x; lia).
  assert (NZBDAV_CACHE_TTL_MS st' = NZBDAV_CACHE_TTL_MS st) as Httl' by reflexivity.
  assert (builderCalls st' = builderCalls st) as Hb by reflexivity.
  split.
  - intros Hlt.
    assert (expired (entry_expiresAt e) later = false) as Hfresh.
    { rewrite Hx, expired_at by done. apply Z.leb_gt. lia. }
    pose proof (cleanup_keeps_fresh later _ _ _ He Hfresh) as Hl.
    unfold getOrCreateNzbdavStream. rewrite Hl.
    destruct e; try done; simpl; rewrite cleanup_builderCalls; by split.
  - intros Hge.
    assert (expired (entry_expiresAt e) later = true) as Hexp.
    { rewrite Hx, expired_at by done. apply Z.leb_le. lia. }
    assert (nzbdavStreamCache (cleanupNzbdavCache later st') !! key = None) as Hn.
    { eapply cleanup_removes_expired; [by rewrite Httl'|done|done]. }
    destruct (call_starts later key st' (or_introl Hn)) as (H1 & H2 & _).
    rewrite Hb in H1, H2. by split.
Qed.

Lemma cached_outcome_until_expiry_witness :
  let data := mkStreamData "/view/movie.mkv" "Movie" in
  let st1 := (getOrCreateNzbdavStream 1000 "k" initial).2 in
  let st2 := settle 2000 "k" 0 (Resolved data) st1 in
  (getOrCreateNzbdavStream 86401999 "k" st2).1 = ReturnData data ∧
  (getOrCreateNzbdavStream 86402000 "k" st2).1 = Started 1%nat.
Proof.
  intros data st1 st2.
  assert (∀ e, Resolved data = Rejected e → flagged e = true) as Hf by discriminate.
  destruct (cached_outcome_until_expiry 2000 86401999 "k" 0%nat (Resolved data) st1
              eq_refl ltac:(discriminate) Hf) as (H1 & _).
  destruct (cached_outcome_until_expiry 2000 86402000 "k" 0%nat (Resolved data) st1
              eq_refl ltac:(discriminate) Hf) as (_ & H2).
  split.
  - exact (proj1 (H1 eq_refl)).
  - exact (proj1 (H2 ltac:(discriminate))).
Defined.

(** X2. Negative cache round trip: with a positive negative-cache TTL, a
    URL marked failed at [now] is reported, with its reason and code, by
    every lookup before [now + TTL]; a lookup at or after that time reports
    nothing and leaves no entry for the URL. *)
Theorem negative_cache_round_trip (now later : Z) (url reason : string)
    (errCode : option string) (st : state) :
  0 < NEGATIVE_CACHE_TTL_MS st → 0 ≤ now →
  let st' := markDownloadUrlFailed now url reason errCode st in
  let stored := mkNegative reason errCode now (now + NEGATIVE_CACHE_TTL_MS st) in
  (later < now + NEGATIVE_CACHE_TTL_MS st →
     (isDownloadUrlFailed later url st').1 = Some stored) ∧
  (now + NEGATIVE_CACHE_TTL_MS st ≤ later →
     (isDownloadUrlFailed later url st').1 = None ∧
     failedDownloadUrlCache (isDownloadUrlFailed later url st').2 !! url = None).
Proof.
  intros Httl Hnow st' stored.
  assert (failedDownloadUrlCache st' !! url = Some stored) as Hl.
  { subst st'. unfold markDownloadUrlFailed.
    rewrite (proj2 (Z.leb_gt _ _) Httl). simpl. apply lookup_insert_eq. }
  assert (NEGATIVE_CACHE_TTL_MS st' = NEGATIVE_CACHE_TTL_MS st) as Httl'.
  { subst st'. unfold markDownloadUrlFailed. by destruct (_ <=? _). }
  assert (neg_expiresAt stored ≠ 0) as Hx0 by (subst stored; simpl; lia).
  unfold isDownloadUrlFailed, cleanupNegativeCache.
  rewrite Httl', (proj2 (Z.leb_gt _ _) Httl). simpl.
  split.
  - intros Hlt.
    assert (expired (Some (neg_expiresAt stored)) later = false) as Hfresh.
    { rewrite expired_at by done. apply Z.leb_gt. subst stored. simpl. lia. }
    rewrite (map_lookup_filter_Some_2 _ _ _ _ Hl Hfresh). by rewrite Hfresh.
  - intros Hge.
    assert (filter (λ kv, expired (Some (neg_expiresAt kv.2)) later = false)
              (failedDownloadUrlCache st') !! url = None) as Hn.
    { apply map_lookup_filter_None. right. intros e' He'. simpl.
      rewrite Hl in He'. injection He' as <-.
      rewrite expired_at by done.
      assert ((neg_expiresAt stored <=? later) = true) as ->
        by (apply Z.leb_le; subst stored; simpl; lia).
      done. }
    rewrite Hn. by split.
Qed.

Lemma negative_cache_round_trip_witness :
  let st' := markDownloadUrlFailed 1000 "http://x/1.nzb" "missing articles" (Some "NZB_FAILED")
               initial in
  (isDownloadUrlFailed 86400999 "http://x/1.nzb" st').1
    = Some (mkNegative "missing articles" (Some "NZB_FAILED") 1000 86401000) ∧
  (isDownloadUrlFailed 86401000 "http://x/1.nzb" st').1 = None.
Proof.
  intros st'.
  destruct (negative_cache_round_trip 1000 86400999 "http://x/1.nzb" "missing articles"
              (Some "NZB_FAILED") initial eq_refl ltac:(discriminate)) as (H1 & _).
  destruct (negative_cache_round_trip 1000 86401000 "http://x/1.nzb" "missing articles"
              (Some "NZB_FAILED") initial eq_refl ltac:(discriminate)) as (_ & H2).
  split.
  - exact (H1 eq_refl).
  - exact (proj1 (H2 ltac:(discriminate))).
Defined.

(** X3. Clearing a failed URL: [clearFailedDownloadUrl] answers whether the
    URL was stored, afterwards no lookup at any time reports it, and the
    entries of other URLs are left as they were. *)
Theorem clear_failed_url (later : Z) (url other : string) (st : state) :
  let r := clearFailedDownloadUrl url st in
  (r.1 = true ↔ is_Some (failedDownloadUrlCache st !! url)) ∧
  (isDownloadUrlFailed later url r.2).1 = None ∧
  (other ≠ url →
     failedDownloadUrlCache r.2 !! other = failedDownloadUrlCache st !! other).
Proof.
  intros r. subst r. unfold clearFailedDownloadUrl.
  assert (∀ st0 : state, failedDownloadUrlCache st0 !! url = None →
            (isDownloadUrlFailed later url st0).1 = None) as Hnone.
  { intros st0 H0. unfold isDownloadUrlFailed.
    assert (failedDownloadUrlCache (cleanupNegativeCache later st0) !! url = None) as ->.
    { unfold cleanupNegativeCache. destruct (_ <=? _); [done|]. simpl.
      apply map_lookup_filter_None. by left. }
    done. }
  destruct (failedDownloadUrlCache st !! url) as [e|] eqn:E; simpl.
  - split; [split; eauto|]. split.
    + apply Hnone. simpl. apply lookup_delete_eq.
    + intros Hne. by rewrite lookup_delete_ne.
  - split; [split; [done|by intros [? ?]]|]. split; [by apply Hnone|done].
Qed.

Lemma clear_failed_url_witness :
  let st := markDownloadUrlFailed 1000 "http://x/2.nzb" "bad" None
              (markDownloadUrlFailed 1000 "http://x/1.nzb" "missing articles" None initial) in
  let r := clearFailedDownloadUrl "http://x/1.nzb" st in
  r.1 = true ∧
  (isDownloadUrlFailed 2000 "http://x/1.nzb" r.2).1 = None ∧
  failedDownloadUrlCache r.2 !! "http://x/2.nzb" = failedDownloadUrlCache st !! "http://x/2.nzb".
Proof.
  intros st r.
  destruct (clear_failed_url 2000 "http://x/1.nzb" "http://x/2.nzb" st) as (H1 & H2 & H3).
  split; [|split].
  - apply H1. by eexists.
  - exact H2.
  - apply H3. discriminate.
Defined.

(** X4. Expiry cleanup composes over time: cleaning at [now] and then at a
    later time leaves the same cache as cleaning once at the later time; in
    particular cleaning twice at one time is cleaning once. After a cleanup
    with a positive TTL no entry left is expired. *)
Theorem cleanup_composes (now later : Z) (st : state) :
  now ≤ later →
  cleanupNzbdavCache later (cleanupNzbdavCache now st) = cleanupNzbdavCache later st ∧
  cleanupNzbdavCache now (cleanupNzbdavCache now st) = cleanupNzbdavCache now st ∧
  (0 < NZBDAV_CACHE_TTL_MS st →
   ∀ k e, nzbdavStreamCache (cleanupNzbdavCache now st) !! k = Some e →
          expired (entry_expiresAt e) now = false).
Proof.
  intros Hle.
  assert (∀ t1 t2, t1 ≤ t2 →
            cleanupNzbdavCache t2 (cleanupNzbdavCache t1 st) = cleanupNzbdavCache t2 st)
    as Hcomp.
  { intros t1 t2 H12. unfold cleanupNzbdavCache.
    destruct (NZBDAV_CACHE_TTL_MS st <=? 0) eqn:E; [by rewrite E|].
    simpl. rewrite E. unfold with_cache. simpl. f_equal.
    apply map_eq. intros k. apply option_eq. intros e.
    rewrite !map_lookup_filter_Some. simpl. split; [tauto|].
    intros [Hk Hx]. split; [split; [done|]|done].
    destruct (expired (entry_expiresAt e) t1) eqn:E1; [|done].
    apply (expired_mono _ _ _ H12) in E1. congruence. }
  split; [by apply Hcomp|]. split; [by apply Hcomp|].
  intros Httl k e. unfold cleanupNzbdavCache.
  rewrite (proj2 (Z.leb_gt _ _) Httl). simpl.
  rewrite map_lookup_filter_Some. simpl. tauto.
Qed.

Lemma cleanup_composes_witness :
  let data := mkStreamData "/view/movie.mkv" "Movie" in
  let st := settle 2000 "k" 0 (Resolved data) (getOrCreateNzbdavStream 1000 "k" initial).2 in
  cleanupNzbdavCache 90000000 (cleanupNzbdavCache 5000 st) = cleanupNzbdavCache 90000000 st.
Proof.
  intros data st.
  exact (proj1 (cleanup_composes 5000 90000000 st ltac:(discriminate))).
Defined.

(** X5. Keys do not interfere: a call for one key changes another key's
    entry only through the expiry cleanup it runs, and the settlement of an
    attempt for one key leaves every other key's entry untouched. *)
Theorem other_keys_untouched (now : Z) (key other : string) (p : nat) (o : outcome)
    (st : state) :
  other ≠ key →
  nzbdavStreamCache (getOrCreateNzbdavStream now key st).2 !! other
    = nzbdavStreamCache (cleanupNzbdavCache now st) !! other ∧
  nzbdavStreamCache (settle now key p o st) !! other = nzbdavStreamCache st !! other.
Proof.
  intros Hne. split.
  - unfold getOrCreateNzbdavStream.
    destruct (nzbdavStreamCache (cleanupNzbdavCache now st) !! key) as [[]|];
      simpl; try done; by rewrite lookup_insert_ne.
  - unfold settle. simpl.
    destruct o as [d|e]; [|destruct (flagged e); [|destruct (isTimeoutError e)]];
      by rewrite ?lookup_insert_ne, ?lookup_delete_ne.
Qed.

Lemma other_keys_untouched_witness :
  let st := (getOrCreateNzbdavStream 1000 "a" initial).2 in
  nzbdavStreamCache (settle 2000 "b" 1 (Rejected parseError)
                       (getOrCreateNzbdavStream 1500 "b" st).2) !! "a"
    = Some (Pending 0).
Proof.
  intros st.
  destruct (other_keys_untouched 2000 "b" "a" 1%nat (Rejected parseError)
              (getOrCreateNzbdavStream 1500 "b" st).2 ltac:(discriminate)) as (_ & H2).
  rewrite H2.
  destruct (other_keys_untouched 1500 "b" "a" 1%nat (Rejected parseError) st
              ltac:(discriminate)) as (H1 & _).
  rewrite H1. reflexivity.
Defined.

Lemma byStatus_sum (l : list (string * entry)) :
  let b := foldr (λ kv b, bump (entry_status kv.2) b) (mkByStatus 0 0 0 0) l in
  (n_ready b + n_pending b + n_failed b + n_timeout_pending b)%nat = length l.
Proof.
  induction l as [|kv l IH]; [done|]. simpl in *.
  destruct (entry_status kv.2); simpl; lia.
Qed.

(** X6. The per-status counts reported by [getNzbdavCacheStats] add up to
    the number of entries, and the negative-cache count it reports is the
    size of the negative cache after its cleanup. *)
Theorem cache_stats_add_up (now : Z) (st : state) :
  let r := getNzbdavCacheStats now st in
  (n_ready (counts r.1) + n_pending (counts r.1) + n_failed (counts r.1)
   + n_timeout_pending (counts r.1))%nat = entries r.1 ∧
  entries r.1 = size (nzbdavStreamCache st) ∧
  neg_entries (negativeCache r.1) = size (failedDownloadUrlCache r.2) ∧
  nzbdavStreamCache r.2 = nzbdavStreamCache st.
Proof.
  intros r. subst r. unfold getNzbdavCacheStats, getNegativeCacheStats. simpl.
  rewrite byStatus_sum, length_map_to_list.
  split; [done|]. split; [done|]. split; [done|].
  unfold cleanupNegativeCache. by destruct (_ <=? _).
Qed.

Lemma cleanup_keeps_missing (now : Z) (key : string) (st : state) :
  nzbdavStreamCache st !! key = None →
  nzbdavStreamCache (cleanupNzbdavCache now st) !! key = None.
Proof.
  intros H. unfold cleanupNzbdavCache. destruct (_ <=? _); [done|]. simpl.
  apply map_lookup_filter_None. by left.
Qed.

Lemma cleanup_keeps_calls (now : Z) (st : state) :
  builderCalls (cleanupNzbdavCache now st) = builderCalls st.
Proof. unfold cleanupNzbdavCache. by destruct (_ <=? _). Qed.

Lemma missing_key_starts (now : Z) (key : string) (st : state) :
  nzbdavStreamCache st !! key = None →
  let r := getOrCreateNzbdavStream now key st in
  r.1 = Started (length (builderCalls st)) ∧
  builderCalls r.2 = (builderCalls st ++ [key])%list ∧
  nzbdavStreamCache r.2 !! key = Some (Pending (length (builderCalls st))).
Proof.
  intros H r. subst r. unfold getOrCreateNzbdavStream.
  rewrite (cleanup_keeps_missing now key st H), cleanup_keeps_calls. simpl.
  split; [done|]. split; [done|]. apply lookup_insert_eq.
Qed.

(** X30. A manual clear forces a new attempt: [clearNzbdavStreamCacheEntry]
    answers whether the key was stored and leaves the other keys alone, and
    after it, or after [clearNzbdavStreamCache], the next call for the key
    invokes the builder, whatever was cached for the key before: a ready
    result, a failure, or an attempt still in flight. *)
Theorem clear_forces_new_attempt (now : Z) (key : string) (st : state) :
  let one := clearNzbdavStreamCacheEntry key st in
  let r := getOrCreateNzbdavStream now key one.2 in
  let r' := getOrCreateNzbdavStream now key (clearNzbdavStreamCache st) in
  (one.1 = true ↔ is_Some (nzbdavStreamCache st !! key)) ∧
  (∀ other, other ≠ key →
     nzbdavStreamCache one.2 !! other = nzbdavStreamCache st !! other) ∧
  r.1 = Started (length (builderCalls st)) ∧
  builderCalls r.2 = (builderCalls st ++ [key])%list ∧
  r'.1 = Started (length (builderCalls st)) ∧
  builderCalls r'.2 = (builderCalls st ++ [key])%list.
Proof.
  intros one r r'. subst one r r'.
  assert (nzbdavStreamCache (clearNzbdavStreamCacheEntry key st).2 !! key = None ∧
          builderCalls (clearNzbdavStreamCacheEntry key st).2 = builderCalls st) as [H1 Hc1].
  { unfold clearNzbdavStreamCacheEntry.
    destruct (nzbdavStreamCache st !! key) eqn:E; [|done]. simpl.
    split; [apply lookup_delete_eq|done]. }
  pose proof (missing_key_starts now key _ H1) as (Ha & Hb & _).
  assert (nzbdavStreamCache (clearNzbdavStreamCache st) !! key = None) as H2 by done.
  pose proof (missing_key_starts now key _ H2) as (Ha' & Hb' & _).
  rewrite Hc1 in Ha, Hb. simpl in Ha', Hb'.
  split; [|split; [|done]].
  - unfold clearNzbdavStreamCacheEntry.
    destruct (nzbdavStreamCache st !! key) eqn:E; simpl.
    + split; eauto.
    + split; [done|by intros [? ?]].
  - intros other Hne. unfold clearNzbdavStreamCacheEntry.
    destruct (nzbdavStreamCache st !! key) eqn:E; simpl; [|done].
    by rewrite lookup_delete_ne.
Qed.

Lemma clear_forces_new_attempt_witness :
  let st := settle 2000 "k" 0 (Rejected (Some (mkError true "NZB failed" None)))
              (getOrCreateNzbdavStream 1000 "k" initial).2 in
  (getOrCreateNzbdavStream 3000 "k" st).1 = Throw (Some (mkError true "NZB failed" None)) ∧
  (getOrCreateNzbdavStream 3000 "k" (clearNzbdavStreamCacheEntry "k" st).2).1 = Started 1.
Proof.
  intros st. split; [reflexivity|].
  exact (proj1 (proj2 (proj2 (clear_forces_new_attempt 3000 "k" st)))).
Defined.
End NzbdavCacheMoreFacts.

(* ===================================================================== *)
(** ** Further properties of the instant playback cache *)
(* ===================================================================== *)

Module InstantCacheMoreFacts.
Import InstantCache InstantCacheSpec InstantCachePersistence.

Lemma getInstantCache_loaded now m st :
  instantCache st = Some m → getInstantCache now st = (m, st).
Proof. intros H. unfold getInstantCache. by rewrite H. Qed.

(** The state in which [getInstantCache] leaves the module is loaded. *)
Lemma getInstantCache_loads now st :
  instantCache (getInstantCache now st).2 = Some (getInstantCache now st).1.
Proof.
  unfold getInstantCache. destruct (instantCache st) as [m|] eqn:E; [done|].
  unfold loadInstantCache. by destruct (disk st).
Qed.






(** X9. Clearing one entry: after [clearInstantCacheEntry] a lookup of that
    content key returns nothing at any time, and the lookup of a content
    key that builds a different cache key answers as it did on the loaded
    cache before. *)
Theorem clear_entry_only (ttl now later : Z) (type id type' id' : string)
    (ep ep' : option episode) (st : state) :
  let st' := clearInstantCacheEntry now type id ep st in
  (getInstantCacheEntry ttl later type id ep st').1 = None ∧
  (buildInstantCacheKey type' id' ep' ≠ buildInstantCacheKey type id ep →
     (getInstantCacheEntry ttl later type' id' ep' st').1
       = (getInstantCacheEntry ttl later type' id' ep' (getInstantCache now st).2).1).
Proof.
  intros st'.
  pose proof (getInstantCache_loads now st) as Hl.
  destruct (getInstantCache now st) as [cache st1] eqn:E. simpl in Hl.
  assert (∃ m, instantCache st' = Some m ∧
               m !! buildInstantCacheKey type id ep = None ∧
               ∀ k, k ≠ buildInstantCacheKey type id ep → m !! k = cache !! k)
    as (m & Hm & Hgone & Hother).
  { subst st'. unfold clearInstantCacheEntry. rewrite E.
    destruct (cache !! buildInstantCacheKey type id ep) eqn:Ek.
    - eexists. split; [done|]. split; [apply lookup_delete_eq|].
      intros k Hk. by rewrite lookup_delete_ne.
    - exists cache. by split. }
  split.
  - unfold getInstantCacheEntry.
    by rewrite (getInstantCache_loaded later _ _ Hm), Hgone.
  - intros Hne. unfold getInstantCacheEntry. cbn [snd].
    rewrite (getInstantCache_loaded later _ _ Hm), (getInstantCache_loaded later _ _ Hl).
    rewrite (Hother _ Hne).
    destruct (cache !! buildInstantCacheKey type' id' ep') as [e|]; [|done].
    by destruct (_ && _).
Qed.

Lemma clear_entry_only_witness :
  let st := setInstantCacheEntry 2000 "series" "tt0944947" (Some (mkEpisode (Some 1) (Some 2)))
              (mkEntry "SABnzbd_nzo_2" "GoT.S01E02" None) (savedAt 1000) in
  let st' := clearInstantCacheEntry 3000 "movie" "tt0133093" None st in
  (getInstantCacheEntry 604800000 4000 "movie" "tt0133093" None st').1 = None ∧
  (getInstantCacheEntry 604800000 4000 "series" "tt0944947"
     (Some (mkEpisode (Some 1) (Some 2))) st').1
    = Some (mkEntry "SABnzbd_nzo_2" "GoT.S01E02" (Some 2000)).
Proof.
  intros st st'.
  destruct (clear_entry_only 604800000 3000 4000 "movie" "tt0133093" "series" "tt0944947"
              None (Some (mkEpisode (Some 1) (Some 2))) st) as (H1 & H2).
  split; [exact H1|].
  fold st' in H2. rewrite (H2 ltac:(discriminate)). reflexivity.
Defined.

(** X10. A missing or unreadable cache file is an empty cache: the first
    lookup of a new process returns nothing, loads the empty object and
    writes nothing to the disk. *)
Theorem missing_file_is_empty (ttl now : Z) (type id : string) (ep : option episode)
    (f : file) :
  f = NoFile ∨ f = Corrupt →
  let r := getInstantCacheEntry ttl now type id ep (initial f) in
  r.1 = None ∧ instantCache r.2 = Some ∅ ∧ disk r.2 = f.
Proof.
  intros [-> | ->]; by compute.
Qed.

Lemma missing_file_is_empty_witness :
  (getInstantCacheEntry 604800000 1000 "movie" "tt0133093" None (initial Corrupt)).1 = None.
Proof.
  exact (proj1 (missing_file_is_empty 604800000 1000 "movie" "tt0133093" None Corrupt
                  (or_intror eq_refl))).
Defined.

Lemma append_empty (s : string) : s +:+ "" = s.
Proof.
  induction s as [|c s IH]; [done|].
  change (String c s +:+ "") with (String c (s +:+ "")). by rewrite IH.
Qed.

Lemma key_shape (type id : string) (ep : option episode) :
  buildInstantCacheKey type id ep
    = type +:+ ":" +:+ id +:+ episodeSuffix (finiteEpisode ep).
Proof.
  unfold buildInstantCacheKey, finiteEpisode, episodeSuffix.
  destruct ep as [[[s|] [e|]]|]; by rewrite ?append_empty.
Qed.

Lemma pretty_N_go_noE (x : N) : ∀ s, noE s = true → noE (pretty_N_go x s) = true.
Proof.
  induction (N.lt_wf_0 x) as [x _ IH]; intros s Hs.
  assert (x = 0 ∨ 0 < x)%N as [-> | Hpos] by lia.
  - by rewrite pretty_N_go_0.
  - rewrite pretty_N_go_step by done. apply IH; [by apply N.div_lt|].
    unfold noE in *. simpl. rewrite Hs.
    unfold pretty_N_char. by repeat case_match.
Qed.

Lemma pretty_Z_noE (z : Z) : noE (pretty z) = true.
Proof.
  assert (∀ x : N, noE (pretty x) = true) as HN.
  { intros x. unfold pretty, pretty_N. case_decide; [done|].
    by apply pretty_N_go_noE. }
  destruct z as [|x|x]; [done| |].
  - apply (HN (Npos x)).
  - unfold pretty, pretty_Z.
    change ("-" +:+ pretty x) with (String "-" (pretty (Npos x))).
    unfold noE. simpl. apply (HN (Npos x)).
Qed.

Lemma split_at_E (u : string) : ∀ u' v v',
  noE u = true → noE u' = true →
  u +:+ String "E" v = u' +:+ String "E" v' → u = u' ∧ v = v'.
Proof.
  unfold noE. induction u as [|c u IH]; intros [|c' u'] v v'.
  - by intros _ _ [= ->].
  - change (String c' u' +:+ String "E" v') with (String c' (u' +:+ String "E" v')).
    intros _ Hc [= <- _]. done.
  - change (String c u +:+ String "E" v) with (String c (u +:+ String "E" v)).
    intros Hc _ [= -> _]. done.
  - change (String c u +:+ String "E" v) with (String c (u +:+ String "E" v)).
    change (String c' u' +:+ String "E" v') with (String c' (u' +:+ String "E" v')).
    simpl. intros [_ Hu]%andb_true_iff [_ Hu']%andb_true_iff [= -> Heq].
    destruct (IH _ _ _ Hu Hu' Heq) as [-> ->]. done.
Qed.

Lemma episodeSuffix_inj (a b : option (Z * Z)) :
  episodeSuffix a = episodeSuffix b → a = b.
Proof.
  destruct a as [[s e]|], b as [[s' e']|]; unfold episodeSuffix; [|done..].
  change (":" +:+ "S" +:+ pretty s +:+ "E" +:+ pretty e)
    with (String ":" (String "S" (pretty s +:+ String "E" (pretty e)))).
  change (":" +:+ "S" +:+ pretty s' +:+ "E" +:+ pretty e')
    with (String ":" (String "S" (pretty s' +:+ String "E" (pretty e')))).
  intros [= Heq].
  apply split_at_E in Heq as [Hs He]; [|apply pretty_Z_noE..].
  apply (inj pretty) in Hs, He. by subst.
Qed.

(** X28. Keys of one title do not collide: for a given type and id, two
    requests get the same instant-cache key exactly when they name the same
    season and episode, or when neither names both (season and episode
    numbers being integers printed in decimal). *)
Theorem episode_keys_distinct (type id : string) (ep1 ep2 : option episode) :
  buildInstantCacheKey type id ep1 = buildInstantCacheKey type id ep2 ↔
  finiteEpisode ep1 = finiteEpisode ep2.
Proof.
  rewrite !key_shape. split; [|by intros ->].
  intros H. do 3 apply (inj (String.append _)) in H.
  by apply episodeSuffix_inj.
Qed.

Lemma episode_keys_distinct_witness :
  buildInstantCacheKey "series" "tt0903747" (Some (mkEpisode (Some 1) (Some 12)))
  ≠ buildInstantCacheKey "series" "tt0903747" (Some (mkEpisode (Some 11) (Some 2))).
Proof.
  intros H.
  apply (proj1 (episode_keys_distinct "series" "tt0903747" _ _)) in H.
  discriminate H.
Defined.

End InstantCacheMoreFacts.

(* ===================================================================== *)
(** ** Further properties of the WebSocket client *)
(* ===================================================================== *)

Module NzbdavWsMoreFacts.
Import NzbdavWs NzbdavWsSpec NzbdavWsEvents.

(** A frame either changes nothing or unregisters one waiter, clears its
    timer and at most settles its promise. *)
Lemma handleMessage_effect raw st :
  handleMessage raw st = st ∨
  ∃ id w o', waiters st !! id = Some w ∧
    handleMessage raw st
      = with_waiters (delete id (waiters st)) (armed st ∖ {[timer w]}) o' st ∧
    (o' = outcomes st ∨ ∃ o, o' = settleOnce (promise w) o (outcomes st)).
Proof.
  unfold handleMessage. destruct raw as [|topic msg]; [by left|].
  destruct (negb _); [by left|].
  destruct msg as [|[s|]]; [by left| |by left].
  destruct (slotId s) as [id|]; [|by left].
  destruct (negb _); [by left|].
  destruct (waiters st !! id) as [w|] eqn:Hw; [|by left].
  right. exists id, w.
  destruct (String.eqb (slotStatus s) "completed").
  { eexists. split; [done|]. split; [reflexivity|]. right. eauto. }
  destruct (String.eqb (slotStatus s) "failed").
  { eexists. split; [done|]. split; [reflexivity|]. right. eauto. }
  eexists. split; [done|]. split; [reflexivity|]. by left.
Qed.


Lemma settleOnce_other p q o (m : gmap nat waiterOutcome) :
  p ≠ q → settleOnce p o m !! q = m !! q.
Proof.
  intros Hne. unfold settleOnce. destruct (m !! p); [done|].
  by rewrite lookup_insert_ne.
Qed.

(** X11. Frames that are not for a tracked job change nothing: text that is
    not JSON, a frame of another topic, a message that does not parse or is
    null, a slot without a job id, and a slot for a job nobody waits for. *)
Theorem untracked_frames_ignored (st : state) (topic : option string) (msg : message)
    (s : slot) :
  handleMessage NotJson st = st ∧
  (topic ≠ Some "ha" → handleMessage (Frame topic msg) st = st) ∧
  handleMessage (Frame (Some "ha") BadMessage) st = st ∧
  handleMessage (Frame (Some "ha") (Slot None)) st = st ∧
  (Js.truthyStr (slotId s) = false → handleMessage (historyFrame s) st = st) ∧
  (∀ id, slotId s = Some id → waiters st !! id = None →
         handleMessage (historyFrame s) st = st).
Proof.
  split; [done|]. split.
  { intros Ht. unfold handleMessage. by rewrite bool_decide_false. }
  split; [done|]. split; [done|]. split.
  - intros Hf. unfold handleMessage, historyFrame.
    rewrite bool_decide_true by done. cbn [negb].
    destruct (slotId s) as [id|]; [|done]. by rewrite Hf.
  - intros id Hid Hw. unfold handleMessage, historyFrame.
    rewrite bool_decide_true by done. cbn [negb].
    rewrite Hid, Hw. by destruct (negb _).
Qed.

Lemma untracked_frames_ignored_witness :
  handleMessage (Frame (Some "qs") (Slot (Some completed))) waiting = waiting ∧
  handleMessage (historyFrame (mkSlot None None None (Some "completed") None None None None))
    waiting = waiting.
Proof.
  destruct (untracked_frames_ignored waiting (Some "qs") (Slot (Some completed))
              (mkSlot None None None (Some "completed") None None None None))
    as (_ & H1 & _ & _ & H2 & _).
  split.
  - apply H1. discriminate.
  - apply H2. reflexivity.
Defined.

(** *** The numbering invariant *)

Lemma wellNumbered_initial conf : wellNumbered (initial conf).
Proof.
  split; simpl.
  - intros id w. by rewrite lookup_empty.
  - intros id1 id2 w1 w2. by rewrite lookup_empty.
  - intros t Ht. by apply not_elem_of_empty in Ht.
  - intros p o. by rewrite lookup_empty.
Qed.

(** Removing a waiter and a timer, with outcomes that only hold old
    promises, keeps the numbering. *)
Lemma wellNumbered_remove id t o' st :
  wellNumbered st →
  (∀ p o, o' !! p = Some o → (p < nextId st)%nat) →
  wellNumbered (with_waiters (delete id (waiters st)) (armed st ∖ {[t]}) o' st).
Proof.
  intros [Ha Hb Hc Hd] Ho. split; simpl.
  - intros id0 w Hw. apply lookup_delete_Some in Hw as [_ Hw]. eauto.
  - intros id1 id2 w1 w2 H1 H2. apply lookup_delete_Some in H1 as [_ H1].
    apply lookup_delete_Some in H2 as [_ H2]. eauto.
  - intros t0 Ht. apply elem_of_difference in Ht as [Ht _]. eauto.
  - exact Ho.
Qed.

Lemma settleOnce_bound p o (m : gmap nat waiterOutcome) (n : nat) :
  (p < n)%nat → (∀ q x, m !! q = Some x → (q < n)%nat) →
  ∀ q x, settleOnce p o m !! q = Some x → (q < n)%nat.
Proof.
  intros Hp Hm q x. unfold settleOnce. destruct (m !! p) eqn:E; [apply Hm|].
  destruct (decide (q = p)) as [->|Hne]; [done|].
  rewrite lookup_insert_ne by done. apply Hm.
Qed.

Lemma wellNumbered_handleMessage raw st :
  wellNumbered st → wellNumbered (handleMessage raw st).
Proof.
  intros Hwn. destruct (handleMessage_effect raw st) as [->|(id & w & o' & Hw & -> & Ho)];
    [done|].
  apply wellNumbered_remove; [done|].
  destruct Ho as [->|(o & ->)]; [apply (wn_outcomes _ Hwn)|].
  apply settleOnce_bound; [|apply (wn_outcomes _ Hwn)].
  by destruct (wn_waiter _ Hwn _ _ Hw).
Qed.

(** The connection handlers do not touch waiters, timers or outcomes. *)
Lemma wellNumbered_same st st' :
  waiters st' = waiters st → armed st' = armed st → outcomes st' = outcomes st →
  nextId st' = nextId st → wellNumbered st → wellNumbered st'.
Proof.
  intros Hw Ha Ho Hn [H1 H2 H3 H4].
  split; rewrite ?Hw, ?Ha, ?Ho, ?Hn; done.
Qed.

Lemma wellNumbered_step ev st : wellNumbered st → wellNumbered (step ev st).
Proof.
  intros Hwn. destruct ev as [| |raw| | |id|id p|id]; simpl.
  - unfold init, connect. destruct (configured st); simpl; [|done].
    by apply (wellNumbered_same st).
  - destruct (ws st); [|done]. by apply (wellNumbered_same st).
  - destruct (ws st); [|done]. unfold onMessage.
    apply wellNumbered_handleMessage. by apply (wellNumbered_same st).
  - destruct (ws st); [|done]. unfold onClose, scheduleReconnect. simpl.
    destruct (reconnectTimer st); by apply (wellNumbered_same st).
  - destruct (reconnectTimer st); [|done]. unfold onReconnectTimer, connect. simpl.
    destruct (configured st); by apply (wellNumbered_same st).
  - destruct Hwn as [H1 H2 H3 H4]. split; simpl.
    + intros id0 w Hw. destruct (decide (id = id0)) as [->|Hne].
      * rewrite lookup_insert_eq in Hw. injection Hw as <-. simpl. split; [done|lia].
      * rewrite lookup_insert_ne in Hw by done.
        destruct (H1 _ _ Hw). split; [done|lia].
    + intros id1 id2 w1 w2 Hw1 Hw2 Heq.
      destruct (decide (id = id1)) as [E1|N1]; destruct (decide (id = id2)) as [E2|N2].
      * congruence.
      * subst id1. rewrite lookup_insert_eq in Hw1. rewrite lookup_insert_ne in Hw2 by done.
        injection Hw1 as <-. simpl in Heq. destruct (H1 _ _ Hw2). lia.
      * subst id2. rewrite lookup_insert_eq in Hw2. rewrite lookup_insert_ne in Hw1 by done.
        injection Hw2 as <-. simpl in Heq. destruct (H1 _ _ Hw1). lia.
      * rewrite lookup_insert_ne in Hw1 by done. rewrite lookup_insert_ne in Hw2 by done.
        eauto.
    + intros t Ht. apply elem_of_union in Ht as [Ht|Ht].
      * apply H3 in Ht. lia.
      * apply elem_of_singleton in Ht. lia.
    + intros q o Hq. apply H4 in Hq. lia.
  - unfold onWaiterTimeout. destruct (bool_decide (S p ∈ armed st)) eqn:E; [|done].
    apply bool_decide_eq_true in E.
    apply wellNumbered_remove; [done|].
    apply settleOnce_bound; [|apply (wn_outcomes _ Hwn)].
    apply (wn_armed _ Hwn) in E. lia.
  - unfold cancelWaiter. destruct (waiters st !! id) as [w|]; [|done].
    apply wellNumbered_remove; [done|]. apply (wn_outcomes _ Hwn).
Qed.

Lemma wellNumbered_run evs : ∀ st, wellNumbered st → wellNumbered (run evs st).
Proof.
  induction evs as [|ev evs IH]; intros st Hwn; [done|].
  apply IH. by apply wellNumbered_step.
Qed.

(** X12. A waiter that gets no event times out: in any state the client
    can reach, a waiter registered for a job whose deadline timer fires
    before any event for the job is rejected with the timeout error naming
    the job, and is unregistered with its timer gone. *)
Theorem waiter_times_out (evs : list event) (conf : bool) (id : string) :
  let st := run evs (initial conf) in
  let p := (waitForHistoryEvent id st).1 in
  let st' := step (WaiterTimeout id p) (step (Wait id) st) in
  outcomes st' !! p
    = Some (RejectedTimeout ("[NZBDAV-WS] Timeout waiting for WS event for " +:+ id)) ∧
  waiters st' !! id = None ∧
  S p ∉ armed st'.
Proof.
  intros st p st'.
  assert (wellNumbered st) as Hwn by apply wellNumbered_run, wellNumbered_initial.
  assert (outcomes st !! nextId st = None) as Hfresh.
  { destruct (outcomes st !! nextId st) eqn:E; [|done].
    apply (wn_outcomes _ Hwn) in E. lia. }
  subst st' p. simpl. unfold onWaiterTimeout. simpl.
  rewrite bool_decide_true by (apply elem_of_union; right; by apply elem_of_singleton).
  simpl. unfold settleOnce. rewrite Hfresh.
  split; [by rewrite lookup_insert_eq|]. split; [apply lookup_delete_eq|].
  apply not_elem_of_difference. right. by apply elem_of_singleton.
Qed.




Lemma abandoned_step ev st p : abandoned p st → abandoned p (step ev st).
Proof.
  intros [H1 H2 H3 H4].
  assert (∀ st', waiters st' = waiters st → armed st' = armed st →
            outcomes st' = outcomes st → nextId st' = nextId st → abandoned p st')
    as Hsame.
  { intros st' Hw Ha Ho Hn. split; rewrite ?Hw, ?Ha, ?Ho, ?Hn; done. }
  assert (∀ id t o' st0, waiters st0 = waiters st → armed st0 = armed st →
            nextId st0 = nextId st → o' !! p = None →
            abandoned p (with_waiters (delete id (waiters st0)) (armed st0 ∖ {[t]}) o' st0))
    as Hremove.
  { intros id t o' st0 Hw Ha Hn Ho. split; simpl; rewrite ?Hw, ?Ha, ?Hn; [done| | |done].
    - intros id0 w Hw0. apply lookup_delete_Some in Hw0 as [_ Hw0]. eauto.
    - intros Hin. apply elem_of_difference in Hin as [Hin _]. done. }
  destruct ev as [| |raw| | |id|id q|id]; simpl.
  - unfold init, connect. destruct (configured st); [|by split]. by apply Hsame.
  - destruct (ws st); [|by split]. by apply Hsame.
  - destruct (ws st); [|by split]. unfold onMessage.
    match goal with |- abandoned p (handleMessage raw ?s) =>
      destruct (handleMessage_effect raw s) as [->|(i & w & o' & Hw & -> & Ho)] end.
    + by apply Hsame.
    + apply Hremove; try done. simpl in *.
      destruct Ho as [->|(x & ->)]; [done|].
      rewrite settleOnce_other; [done|]. by eapply H2.
  - destruct (ws st); [|by split]. unfold onClose, scheduleReconnect. simpl.
    destruct (reconnectTimer st); by apply Hsame.
  - destruct (reconnectTimer st); [|by split]. unfold onReconnectTimer, connect. simpl.
    destruct (configured st); by apply Hsame.
  - split; simpl; [done| | |lia].
    + intros id0 w Hw. destruct (decide (id = id0)) as [->|Hne].
      * rewrite lookup_insert_eq in Hw. injection Hw as <-. simpl. lia.
      * rewrite lookup_insert_ne in Hw by done. eauto.
    + intros Hin. apply elem_of_union in Hin as [Hin|Hin]; [done|].
      apply elem_of_singleton in Hin. lia.
  - unfold onWaiterTimeout. destruct (bool_decide (S q ∈ armed st)) eqn:E; [|by split].
    apply bool_decide_eq_true in E. apply Hremove; try done.
    rewrite settleOnce_other; [done|]. intros ->. done.
  - unfold cancelWaiter. destruct (waiters st !! id) as [w|]; [|by split].
    by apply Hremove.
Qed.

(** X14. A cancelled waiter stays silent: once [cancelWaiter] has removed
    the waiter of a job whose promise was still pending, no later event of
    the client (frames for the job, its deadline, new waiters for the same
    job) ever settles that promise. *)
Theorem cancelled_waiter_never_settles (before after : list event) (conf : bool)
    (id : string) (w : waiter) :
  let st := run before (initial conf) in
  waiters st !! id = Some w → outcomes st !! promise w = None →
  outcomes (run after (cancelWaiter id st)) !! promise w = None.
Proof.
  intros st Hw Ho.
  assert (wellNumbered st) as Hwn by apply wellNumbered_run, wellNumbered_initial.
  destruct (wn_waiter _ Hwn _ _ Hw) as [Ht Hlt].
  assert (abandoned (promise w) (cancelWaiter id st)) as Hab.
  { unfold cancelWaiter. rewrite Hw. split; simpl; [done| | |done].
    - intros id0 w0 Hw0 Heq. apply lookup_delete_Some in Hw0 as [Hne Hw0].
      apply Hne. symmetry. by apply (wn_distinct _ Hwn _ _ _ _ Hw0 Hw).
    - rewrite <- Ht. apply not_elem_of_difference. right. by apply elem_of_singleton. }
  clear Hw Ho. generalize dependent (cancelWaiter id st). clear.
  induction after as [|ev evs IH]; intros st0 Hab; [apply Hab|].
  apply IH. by apply abandoned_step.
Qed.

Lemma cancelled_waiter_never_settles_witness :
  outcomes (run [Message (historyFrame completed); WaiterTimeout "SABnzbd_nzo_7" 0]
                (cancelWaiter "SABnzbd_nzo_7"
                   (run [Init; Open; Wait "SABnzbd_nzo_7"] (initial true)))) !! 0%nat
    = None.
Proof.
  exact (cancelled_waiter_never_settles [Init; Open; Wait "SABnzbd_nzo_7"]
           [Message (historyFrame completed); WaiterTimeout "SABnzbd_nzo_7" 0]
           true "SABnzbd_nzo_7" (mkWaiter 0 1) eq_refl eq_refl).
Defined.



(** X16. The first frame authenticates: on a connected socket the client
    reports itself connected only after a frame has arrived, any frame, even
    one that is not JSON, makes it so once the socket has opened, and a
    close makes it disconnected again. *)
Theorem first_frame_authenticates (raw : frame) (st : state) :
  is_Some (ws st) →
  (authenticated st = false → isConnected (step Open st) = false) ∧
  isConnected (run [Open; Message raw] st) = true ∧
  isConnected (step Close st) = false.
Proof.
  intros [sock Hws]. split; [|split].
  - intros Ha. simpl. rewrite Hws. unfold isConnected. simpl. by rewrite Ha.
  - simpl. rewrite Hws. simpl. rewrite Hws. unfold onMessage.
    match goal with |- isConnected (handleMessage raw ?s) = _ =>
      destruct (handleMessage_effect raw s) as [->|(i & w & o' & _ & -> & _)] end; done.
  - simpl. rewrite Hws. unfold onClose, scheduleReconnect. simpl.
    by destruct (reconnectTimer st).
Qed.

Lemma first_frame_authenticates_witness :
  isConnected (step Open (connect (initial true))) = false ∧
  isConnected (run [Open; Message NotJson] (connect (initial true))) = true.
Proof.
  destruct (first_frame_authenticates NotJson (connect (initial true)))
    as (H1 & H2 & _); [by eexists|].
  split; [exact (H1 eq_refl)|exact H2].
Defined.

End NzbdavWsMoreFacts.

(* ===================================================================== *)
(** ** Further properties of the history matcher *)
(* ===================================================================== *)

Module HistoryMatchingMoreFacts.
Import HistoryMatching HistoryMatchingSpec HistoryMatchingRegion HistoryMatchingFacts.

Lemma wordSet_members (l1 l2 : list string) :
  (∀ x, x ∈ l1 ↔ x ∈ l2) → wordSet l1 = wordSet l2.
Proof.
  intros H. apply set_eq. intros x. unfold wordSet.
  by rewrite !elem_of_list_to_set.
Qed.

Lemma ratio_same (n : nat) : n ≠ 0%nat → (ratio n n == 1)%Q.
Proof.
  intros Hn. unfold ratio. apply Qmult_inv_r.
  unfold inject_Z, Qeq. simpl. lia.
Qed.

Lemma inter_comm (A B : gset string) : A ∩ B = B ∩ A.
Proof. apply set_eq. intros x. rewrite !elem_of_intersection. tauto. Qed.

Lemma union_comm (A B : gset string) : A ∪ B = B ∪ A.
Proof. apply set_eq. intros x. rewrite !elem_of_union. tauto. Qed.

Lemma inter_same (A : gset string) : A ∩ A = A.
Proof. apply set_eq. intros x. rewrite !elem_of_intersection. tauto. Qed.

Lemma union_same (A : gset string) : A ∪ A = A.
Proof. apply set_eq. intros x. rewrite !elem_of_union. tauto. Qed.

Lemma jaccard_comm (A B : gset string) : jaccard A B = jaccard B A.
Proof. unfold jaccard. by rewrite (inter_comm A B), (union_comm A B). Qed.

Lemma jaccard_same (w : string) (l : list string) :
  (jaccard (wordSet (w :: l)) (wordSet (w :: l)) == 1)%Q.
Proof.
  unfold jaccard. rewrite union_same, inter_same.
  assert (size (wordSet (w :: l)) ≠ 0%nat) as Hne.
  { pose proof (union_size_pos w l (wordSet (w :: l))) as H.
    by rewrite union_same in H. }
  destruct (decide _); [done|]. by apply ratio_same.
Qed.

(** X17. Word similarity compares sets: it is symmetric, it depends only on
    which words occur (not on their order or repetition), it is 1 for two
    non-empty lists with the same words and 0 for lists without a common
    word. *)
Theorem word_similarity_of_sets (w1 w2 v1 v2 : list string) :
  (calculateWordSimilarity w1 w2 == calculateWordSimilarity w2 w1)%Q ∧
  ((∀ x, x ∈ w1 ↔ x ∈ v1) → (∀ x, x ∈ w2 ↔ x ∈ v2) →
     (calculateWordSimilarity w1 w2 == calculateWordSimilarity v1 v2)%Q) ∧
  (w1 ≠ [] → (∀ x, x ∈ w1 ↔ x ∈ w2) → (calculateWordSimilarity w1 w2 == 1)%Q) ∧
  ((∀ x, x ∈ w1 → x ∉ w2) → (calculateWordSimilarity w1 w2 == 0)%Q).
Proof.
  split; [|split; [|split]].
  - rewrite !calculateWordSimilarity_jaccard. by rewrite jaccard_comm.
  - intros H1 H2. rewrite !calculateWordSimilarity_jaccard.
    by rewrite (wordSet_members _ _ H1), (wordSet_members _ _ H2).
  - intros Hne H. rewrite calculateWordSimilarity_jaccard.
    rewrite <- (wordSet_members _ _ H). destruct w1 as [|w l]; [done|].
    apply jaccard_same.
  - intros Hdisj. rewrite calculateWordSimilarity_jaccard. unfold jaccard.
    assert (wordSet w1 ∩ wordSet w2 = ∅) as ->.
    { apply set_eq. intros x. unfold wordSet.
      rewrite elem_of_intersection, !elem_of_list_to_set.
      split; [intros [H1 H2]; by apply Hdisj in H1|].
      intros H. by apply elem_of_empty in H. }
    rewrite size_empty. destruct (decide _); [reflexivity|]. apply ratio_zero.
Qed.

Lemma word_similarity_of_sets_witness :
  (calculateWordSimilarity ["days"; "28"; "later"; "28"] ["28"; "days"; "later"] == 1)%Q ∧
  (calculateWordSimilarity ["the"; "matrix"] ["28"; "days"] == 0)%Q.
Proof.
  destruct (word_similarity_of_sets ["days"; "28"; "later"; "28"] ["28"; "days"; "later"]
              [] []) as (_ & _ & H1 & _).
  destruct (word_similarity_of_sets ["the"; "matrix"] ["28"; "days"] [] [])
    as (_ & _ & _ & H2).
  split.
  - apply H1; [discriminate|]. intros x. rewrite !list_elem_of_In. simpl. tauto.
  - apply H2. intros x. rewrite !list_elem_of_In. simpl.
    intros [<-|[<-|[]]] [H|[H|[]]]; discriminate.
Defined.

(** Membership in the result, past the early returns. *)
Lemma result_members searchTitle historyMap opts m :
  m ∈ findMatchingHistoryItems searchTitle historyMap opts ↔
  titleWords (parseReleaseTokens searchTitle) ≠ [] ∧
  m ∈ map (compare (parseReleaseTokens searchTitle)) historyMap ∧
  isMatch (default DEFAULT_MIN_SIMILARITY (minSimilarity opts))
          (default false (requireAllWords opts)) (details m) = true.
Proof.
  destruct (decide (titleWords (parseReleaseTokens searchTitle) = [])) as [He|Hne].
  - split; [|by intros [? _]].
    unfold findMatchingHistoryItems. destruct (_ || _).
    + intros H. by apply not_elem_of_nil in H.
    + rewrite He. simpl. intros H. by apply not_elem_of_nil in H.
  - rewrite findMatchingHistoryItems_unfold by done.
    rewrite sortDesc_perm, list_elem_of_filter. tauto.
Qed.

(** X18. The modes and thresholds nest: every match of strict mode is a
    match of fuzzy mode at any threshold, and in fuzzy mode every match at a
    threshold is a match at each lower threshold. *)
Theorem matches_nest (searchTitle : string) (historyMap : list (string * historyEntry))
    (a b : Q) (threshold : option Q) (m : matchItem) :
  (m ∈ findMatchingHistoryItems searchTitle historyMap (mkOptions threshold (Some true)) →
   m ∈ findMatchingHistoryItems searchTitle historyMap (mkOptions (Some a) (Some false))) ∧
  ((a <= b)%Q →
   m ∈ findMatchingHistoryItems searchTitle historyMap (mkOptions (Some b) None) →
   m ∈ findMatchingHistoryItems searchTitle historyMap (mkOptions (Some a) None)).
Proof.
  split.
  - rewrite !result_members. simpl. intros (Hw & Hin & Hm).
    split; [done|]. split; [done|]. unfold isMatch in *. simpl in Hm.
    rewrite Hm. by rewrite orb_true_r.
  - intros Hab. rewrite !result_members. simpl. intros (Hw & Hin & Hm).
    split; [done|]. split; [done|]. unfold isMatch in *.
    apply orb_true_iff in Hm as [Hm|Hm]; [|by rewrite Hm, orb_true_r].
    apply orb_true_iff in Hm as [Hm|Hm]; [|by rewrite Hm, orb_true_r].
    apply Qle_bool_iff in Hm.
    assert (Qle_bool a (score (details m)) = true) as ->; [|done].
    apply Qle_bool_iff. by apply Qle_trans with b.
Qed.

Lemma matches_nest_witness :
  let m := compare (parseReleaseTokens "28.Days.Later.2002.1080p") weeksLater in
  m ∈ findMatchingHistoryItems "28.Days.Later.2002.1080p" history
        (mkOptions (Some (1 # 10)) None).
Proof.
  intros m.
  destruct (matches_nest "28.Days.Later.2002.1080p" history (1 # 10) (3 # 10) None m)
    as (_ & H).
  apply H; [discriminate|].
  apply result_members. split; [discriminate|]. split; [left|reflexivity].
Defined.

(** The title words and the year do not depend on which token is last. *)
Lemma scanToken_last_irrelevant st token :
  s_titleWords (scanToken true st token) = s_titleWords (scanToken false st token) ∧
  s_year (scanToken true st token) = s_year (scanToken false st token) ∧
  s_found (scanToken true st token) = s_found (scanToken false st token) ∧
  s_resolution (scanToken true st token) = s_resolution (scanToken false st token).
Proof.
  unfold scanToken.
  destruct (isNone (s_year st) && isYear token); [done|].
  destruct (isNone (s_resolution st) && isResolution (Js.toLowerCase token)); [done|].
  destruct (isNone (s_resolution st) && _); [done|].
  destruct (has QUALITY_TOKENS (Js.toLowerCase token)); [done|].
  by destruct (has LANGUAGE_TOKENS (Js.toLowerCase token)).
Qed.







(** X20. A title already in the history is always found: when an entry of
    the history is parsed from the very title that is searched, and that
    title has title words, the entry is a match in fuzzy mode at any
    threshold and in strict mode, and its similarity is 1. *)
Theorem same_title_matches (searchTitle key : string) (e : historyEntry)
    (historyMap : list (string * historyEntry)) (opts : options) :
  titleWords (parseReleaseTokens searchTitle) ≠ [] →
  (key, e) ∈ historyMap →
  Js.orStr (jobName e) (Some key) = Some searchTitle →
  let m := compare (parseReleaseTokens searchTitle) (key, e) in
  m ∈ findMatchingHistoryItems searchTitle historyMap opts ∧
  (similarity m == 1)%Q.
Proof.
  intros Hw Hin Hsame m.
  set (p := parseReleaseTokens searchTitle) in *.
  assert (details m = calculateReleaseSimilarity p p) as Hd.
  { subst m. unfold compare. simpl. rewrite Hsame. done. }
  assert (allWordsIn (titleWords p) (titleWords p) = true) as Hall.
  { unfold allWordsIn. apply andb_true_iff. split.
    - destruct (titleWords p); [done|]. done.
    - apply forallb_forall. intros x Hx. apply has_elem_of. by apply list_elem_of_In. }
  split.
  - apply result_members. fold p. split; [done|]. split.
    + apply list_elem_of_fmap. by exists (key, e).
    + rewrite Hd. unfold isMatch, calculateReleaseSimilarity. simpl. rewrite Hall.
      destruct (default false (requireAllWords opts)); [done|]. by rewrite !orb_true_r.
  - assert (similarity m = score (details m)) as -> by reflexivity.
    rewrite Hd.
    destruct (word_similarity_of_sets (titleWords p) (titleWords p) [] [])
      as (_ & _ & H1 & _).
    assert ((calculateWordSimilarity (titleWords p) (titleWords p) == 1)%Q) as HJ
      by (by apply H1).
    unfold calculateReleaseSimilarity. simpl.
    rewrite bool_decide_true by done. simpl. rewrite andb_false_r.
    destruct (Js.truthyStr (year p) && Js.truthyStr (year p)); simpl; [|done].
    apply Q.min_l. rewrite HJ. discriminate.
Qed.

Lemma same_title_matches_witness :
  let kv := ("28 days later", mkHistoryEntry (Some "28.Days.Later.2002.1080p") "nzo_9") in
  compare (parseReleaseTokens "28.Days.Later.2002.1080p") kv
    ∈ findMatchingHistoryItems "28.Days.Later.2002.1080p" (kv :: history)
        (mkOptions (Some 1%Q) (Some true)).
Proof.
  intros kv.
  refine (proj1 (same_title_matches "28.Days.Later.2002.1080p" "28 days later"
                   (mkHistoryEntry (Some "28.Days.Later.2002.1080p") "nzo_9")
                   (kv :: history) (mkOptions (Some 1%Q) (Some true)) _ _ _)).
  - discriminate.
  - left.
  - reflexivity.
Defined.

End HistoryMatchingMoreFacts.

(* ===================================================================== *)
(** ** Properties of the health checks *)
(* ===================================================================== *)

Module HealthFacts.
Import Health HealthSamples.

Lemma filter_length_zero {A} (f : A → bool) (l : list A) :
  length (List.filter f l) = 0%nat ↔ ∀ x, x ∈ l → f x = false.
Proof.
  induction l as [|a l IH]; simpl.
  - split; [|done]. intros _ x Hx. by apply not_elem_of_nil in Hx.
  - destruct (f a) eqn:E; simpl.
    + split; [done|]. intros H. specialize (H a ltac:(left)). congruence.
    + rewrite IH. split.
      * intros H x Hx. apply elem_of_cons in Hx as [->|Hx]; eauto.
      * intros H x Hx. apply H. by right.
Qed.

(** X21. The overall status: it is unhealthy exactly when the NZBDav API
    check or the NZBDav WebDAV check is down; it is healthy exactly when no
    check is down and at least two checks are not unconfigured, whichever
    they are; in every other case it is degraded. *)
Theorem overall_status (checks : list (string * checkResult)) :
  (determineOverallStatus checks = unhealthy ↔
     ∃ name c, (name, c) ∈ checks ∧ c_status c = down ∧
               (name = "nzbdav_api" ∨ name = "nzbdav_webdav")) ∧
  (determineOverallStatus checks = healthy ↔
     (∀ name c, (name, c) ∈ checks → c_status c ≠ down) ∧
     (2 ≤ length (List.filter (λ kv, negb (bool_decide (c_status kv.2 = unconfigured)))
                              checks))%nat).
Proof.
  unfold determineOverallStatus.
  set (critical := existsb _ checks).
  assert (critical = true ↔
            ∃ name c, (name, c) ∈ checks ∧ c_status c = down ∧
                      (name = "nzbdav_api" ∨ name = "nzbdav_webdav")) as Hcrit.
  { subst critical. rewrite existsb_exists. split.
    - intros ([name c] & Hin & H). apply andb_true_iff in H as [Hd Hc].
      apply bool_decide_eq_true in Hd. exists name, c.
      split; [by apply list_elem_of_In|]. split; [done|].
      simpl in Hc. rewrite orb_false_r in Hc.
      apply orb_true_iff in Hc as [Hc|Hc]; apply String.eqb_eq in Hc; auto.
    - intros (name & c & Hin & Hd & Hn). exists (name, c).
      split; [by apply list_elem_of_In|]. simpl.
      rewrite bool_decide_true by done. simpl.
      destruct Hn as [-> | ->]; reflexivity. }
  set (downCount := length (List.filter _ checks)).
  assert (downCount = 0%nat ↔ ∀ name c, (name, c) ∈ checks → c_status c ≠ down) as Hdown.
  { subst downCount. rewrite filter_length_zero. split.
    - intros H name c Hin Hd. specialize (H _ Hin). simpl in H.
      by rewrite bool_decide_true in H.
    - intros H [name c] Hin. simpl. apply bool_decide_eq_false. by eapply H. }
  split.
  - rewrite <- Hcrit. destruct critical; [done|].
    destruct (0 <? downCount)%nat; [done|]. by destruct (_ <? 2)%nat.
  - rewrite <- Hdown. destruct critical eqn:Ec.
    + split; [done|]. intros [H0 _]. pose proof (proj1 Hdown H0) as Hnone.
      destruct (proj1 Hcrit eq_refl) as (name & c & Hin & Hd & _).
      by apply Hnone in Hin.
    + destruct (0 <? downCount)%nat eqn:E0.
      * apply Nat.ltb_lt in E0. split; [done|]. lia.
      * apply Nat.ltb_ge in E0.
        destruct (_ <? 2)%nat eqn:E2.
        -- apply Nat.ltb_lt in E2. split; [done|]. lia.
        -- apply Nat.ltb_ge in E2. split; [|done]. intros _. split; [lia|done].
Qed.

Lemma overall_status_witness :
  determineOverallStatus
    [ ("nzbdav_api", unconfiguredResult "URL not configured");
      ("cinemeta", mkResult up None (Some 40) None);
      ("tmdb", mkResult up None (Some 55) None) ] = healthy.
Proof.
  apply overall_status. split; [|simpl; lia].
  intros name c Hin Hd. apply list_elem_of_In in Hin. simpl in Hin.
  destruct Hin as [H|[H|[H|H]]]; [| | |done]; injection H as <- <-; discriminate Hd.
Defined.

(** X22. What counts as unconfigured is decided by the settings alone,
    before any request: the API check needs URL and key, the WebDAV check
    URL, user and password, the indexer check only the URL (a missing
    Prowlarr key makes it down, not unconfigured), the TMDb check the key,
    the Usenet check the host and the NNTP library; the Cinemeta check is
    never unconfigured. *)
Theorem unconfigured_exactly (o : httpOutcome) (u : nntpOutcome) (latency : Z)
    (baseUrl apiKey username password type host : option string) (library : bool) :
  (c_status (checkNzbdavApi baseUrl apiKey o latency) = unconfigured ↔
     Js.truthyStr baseUrl = false ∨ Js.truthyStr apiKey = false) ∧
  (c_status (checkNzbdavWebdav baseUrl username password o latency) = unconfigured ↔
     Js.truthyStr baseUrl = false ∨ Js.truthyStr username = false ∨
     Js.truthyStr password = false) ∧
  (c_status (checkIndexer type baseUrl apiKey o latency) = unconfigured ↔
     Js.truthyStr baseUrl = false) ∧
  c_status (checkCinemeta o latency) ≠ unconfigured ∧
  (c_status (checkTmdb apiKey o latency) = unconfigured ↔ Js.truthyStr apiKey = false) ∧
  (c_status (checkUsenet host library u latency) = unconfigured ↔
     Js.truthyStr host = false ∨ library = false).
Proof.
  assert (∀ l r, c_status (finish l r) ≠ unconfigured) as Hfin.
  { intros l [m|v]; discriminate. }
  repeat split.
  - unfold checkNzbdavApi. destruct (Js.truthyStr baseUrl); simpl; [|by left].
    destruct (Js.truthyStr apiKey); simpl; [|by right]. intros H. by apply Hfin in H.
  - unfold checkNzbdavApi.
    destruct (Js.truthyStr baseUrl); simpl; [|done].
    destruct (Js.truthyStr apiKey); simpl; [|done]. by intros [|].
  - unfold checkNzbdavWebdav. destruct (Js.truthyStr baseUrl); simpl; [|by left].
    destruct (Js.truthyStr username); simpl; [|by right; left].
    destruct (Js.truthyStr password); simpl; [|by right; right].
    intros H. by apply Hfin in H.
  - unfold checkNzbdavWebdav.
    destruct (Js.truthyStr baseUrl); simpl; [|done].
    destruct (Js.truthyStr username); simpl; [|done].
    destruct (Js.truthyStr password); simpl; [|done]. by intros [|[|]].
  - unfold checkIndexer. destruct (Js.truthyStr baseUrl); simpl; [|done].
    intros H. by apply Hfin in H.
  - unfold checkIndexer. intros ->. done.
  - apply Hfin.
  - unfold checkTmdb. destruct (Js.truthyStr apiKey); simpl; [|done].
    intros H. by apply Hfin in H.
  - unfold checkTmdb. intros ->. done.
  - unfold checkUsenet. destruct (Js.truthyStr host); simpl; [|by left].
    destruct library; simpl; [|by right]. intros H. by apply Hfin in H.
  - unfold checkUsenet. destruct (Js.truthyStr host); simpl; [|done].
    destruct library; simpl; [|done]. by intros [|].
Qed.

Lemma unconfigured_exactly_witness :
  c_status (checkIndexer (Some "Prowlarr") (Some "http://prowlarr:9696") None
              (Threw "unused") 3) = down.
Proof.
  destruct (c_status (checkIndexer (Some "Prowlarr") (Some "http://prowlarr:9696") None
                        (Threw "unused") 3)) eqn:E; [discriminate E|reflexivity|].
  destruct (unconfigured_exactly (Threw "unused") NntpReady 3
              (Some "http://prowlarr:9696") None None None (Some "Prowlarr") None true)
    as (_ & _ & H & _).
  apply H in E. discriminate E.
Defined.

(** X23. When the two critical checks are up: the API check, once
    configured, is up exactly for a response with a status below 400, and
    the WebDAV check, once configured, exactly for a response with status
    200 or 207. A thrown request or any other status makes them down. *)
Theorem critical_checks_up (o : httpOutcome) (latency : Z)
    (baseUrl apiKey username password : option string) :
  Js.truthyStr baseUrl = true →
  (Js.truthyStr apiKey = true →
     (c_status (checkNzbdavApi baseUrl apiKey o latency) = up ↔
        ∃ r, o = Responded r ∧ r_status r < 400) ∧
     (c_status (checkNzbdavApi baseUrl apiKey o latency) ≠ up →
        c_status (checkNzbdavApi baseUrl apiKey o latency) = down)) ∧
  (Js.truthyStr username = true → Js.truthyStr password = true →
     (c_status (checkNzbdavWebdav baseUrl username password o latency) = up ↔
        ∃ r, o = Responded r ∧ (r_status r = 200 ∨ r_status r = 207)) ∧
     (c_status (checkNzbdavWebdav baseUrl username password o latency) ≠ up →
        c_status (checkNzbdavWebdav baseUrl username password o latency) = down)).
Proof.
  intros Hb. split.
  - intros Hk. unfold checkNzbdavApi. rewrite Hb, Hk. simpl.
    destruct o as [r|m]; simpl.
    + unfold authFailed.
      destruct (r_status r =? 401) eqn:E1; simpl.
      { apply Z.eqb_eq in E1. split; [|done]. split; [done|].
        intros (r' & [= <-] & H). lia. }
      destruct (r_status r =? 403) eqn:E3; simpl.
      { apply Z.eqb_eq in E3. split; [|done]. split; [done|].
        intros (r' & [= <-] & H). lia. }
      destruct (500 <=? r_status r) eqn:E5; simpl.
      { apply Z.leb_le in E5. split; [|done]. split; [done|].
        intros (r' & [= <-] & H). lia. }
      destruct (400 <=? r_status r) eqn:E4; simpl.
      { apply Z.leb_le in E4. split; [|done]. split; [done|].
        intros (r' & [= <-] & H). lia. }
      apply Z.leb_gt in E4. split; [|done]. split; [|done].
      intros _. by exists r.
    + split; [|done]. split; [done|]. by intros (r' & ? & _).
  - intros Hu Hp. unfold checkNzbdavWebdav. rewrite Hb, Hu, Hp. simpl.
    destruct o as [r|m]; simpl.
    + unfold authFailed.
      destruct (r_status r =? 401) eqn:E1; simpl.
      { apply Z.eqb_eq in E1. split; [|done]. split; [done|].
        intros (r' & [= <-] & H). lia. }
      destruct (r_status r =? 403) eqn:E3; simpl.
      { apply Z.eqb_eq in E3. split; [|done]. split; [done|].
        intros (r' & [= <-] & H). lia. }
      destruct (400 <=? r_status r) eqn:E4; simpl.
      { apply Z.leb_le in E4. split; [|done]. split; [done|].
        intros (r' & [= <-] & H). lia. }
      destruct (r_status r =? 207) eqn:E207; simpl.
      { apply Z.eqb_eq in E207. split; [|done]. split; [|done].
        intros _. exists r. auto. }
      destruct (r_status r =? 200) eqn:E200; simpl.
      { apply Z.eqb_eq in E200. split; [|done]. split; [|done].
        intros _. exists r. auto. }
      apply Z.eqb_neq in E207. apply Z.eqb_neq in E200.
      split; [|done]. split; [done|]. intros (r' & [= <-] & H). lia.
    + split; [|done]. split; [done|]. by intros (r' & ? & _).
Qed.

Lemma critical_checks_up_witness :
  c_status (checkNzbdavApi (Some "http://nzbdav:3000") (Some "key")
              (Responded (mkResponse 302 false false None)) 12) = up ∧
  c_status (checkNzbdavWebdav (Some "http://nzbdav:3000") (Some "user") (Some "pass")
              (Responded (mkResponse 302 false false None)) 12) = down.
Proof.
  destruct (critical_checks_up (Responded (mkResponse 302 false false None)) 12
              (Some "http://nzbdav:3000") (Some "key") (Some "user") (Some "pass") eq_refl)
    as (Ha & Hw).
  destruct (Ha eq_refl) as (Hup & _).
  destruct (Hw eq_refl eq_refl) as (Hup' & Hdown).
  split.
  - apply Hup. eexists. split; [reflexivity|]. reflexivity.
  - apply Hdown. rewrite Hup'. intros (r & [= <-] & [H|H]); discriminate H.
Defined.

Lemma six_checks (r1 r2 r3 r4 r5 r6 : checkResult) :
  c_status r1 ≠ down → c_status r2 ≠ down → c_status r3 ≠ down →
  c_status r4 = up → c_status r5 ≠ down → c_status r6 ≠ down →
  (determineOverallStatus
     [("nzbdav_api", r1); ("nzbdav_webdav", r2); ("indexer", r3);
      ("cinemeta", r4); ("tmdb", r5); ("usenet", r6)] = healthy ↔
   c_status r1 = up ∨ c_status r2 = up ∨ c_status r3 = up ∨
   c_status r5 = up ∨ c_status r6 = up).
Proof.
  intros H1 H2 H3 H4 H5 H6. unfold determineOverallStatus. simpl. rewrite H4.
  destruct (c_status r1), (c_status r2), (c_status r3), (c_status r5), (c_status r6);
    try congruence; simpl;
    (split; [intros H; try discriminate H; auto 6
            |intros [H|[H|[H|[H|H]]]]; try discriminate H; reflexivity]).
Qed.

(** X24. The health report: its dependencies are the six checks in their
    fixed order with the status of each check; a report that is not verbose
    carries no message and no version; and when no check is down, the
    report is healthy exactly when at least one service besides Cinemeta is
    up (configured), degraded when Cinemeta alone answers. *)
Theorem health_report (c : config) (n : network) (verbose : bool) :
  let r := runHealthChecks c n verbose in
  let checks := runChecks c n in
  map fst (h_dependencies r)
    = ["nzbdav_api"; "nzbdav_webdav"; "indexer"; "cinemeta"; "tmdb"; "usenet"] ∧
  map (λ kv, d_status kv.2) (h_dependencies r) = map (λ kv, c_status kv.2) checks ∧
  (verbose = false →
     Forall (λ kv, d_message kv.2 = None ∧ d_version kv.2 = None) (h_dependencies r)) ∧
  ((∀ kv, kv ∈ checks → c_status kv.2 ≠ down) →
     (h_status r = healthy ↔
        ∃ kv, kv ∈ checks ∧ kv.1 ≠ "cinemeta" ∧ c_status kv.2 = up)).
Proof.
  intros r checks. split; [reflexivity|]. split; [reflexivity|]. split.
  { intros ->. subst r. unfold runHealthChecks, runChecks. simpl.
    repeat (apply List.Forall_cons; [by split|]). apply List.Forall_nil. }
  intros Hnd. subst r checks. unfold runHealthChecks, runChecks in *. simpl h_status.
  set (r1 := checkNzbdavApi _ _ _ _) in *.
  set (r2 := checkNzbdavWebdav _ _ _ _ _) in *.
  set (r3 := checkIndexer _ _ _ _ _) in *.
  set (r4 := checkCinemeta _ _) in *.
  set (r5 := checkTmdb _ _ _) in *.
  set (r6 := checkUsenet _ _ _ _) in *.
  assert (c_status r1 ≠ down) as H1 by (apply (Hnd ("nzbdav_api", r1)); set_solver).
  assert (c_status r2 ≠ down) as H2 by (apply (Hnd ("nzbdav_webdav", r2)); set_solver).
  assert (c_status r3 ≠ down) as H3 by (apply (Hnd ("indexer", r3)); set_solver).
  assert (c_status r4 ≠ down) as H4' by (apply (Hnd ("cinemeta", r4)); set_solver).
  assert (c_status r5 ≠ down) as H5 by (apply (Hnd ("tmdb", r5)); set_solver).
  assert (c_status r6 ≠ down) as H6 by (apply (Hnd ("usenet", r6)); set_solver).
  assert (c_status r4 = up) as H4.
  { destruct (c_status r4) eqn:E; [done|done|].
    subst r4. unfold checkCinemeta in E. by destruct (finish _ _) eqn:F, (net_cinemeta n).1
      as [resp|m]; simpl in *;
      repeat match goal with H : context [if ?b then _ else _] |- _ => destruct b end;
      simpl in *; try discriminate; injection F as <- _ _ _; discriminate. }
  rewrite (six_checks r1 r2 r3 r4 r5 r6 H1 H2 H3 H4 H5 H6). split.
  - intros [H|[H|[H|[H|H]]]];
      [exists ("nzbdav_api", r1)|exists ("nzbdav_webdav", r2)|exists ("indexer", r3)
      |exists ("tmdb", r5)|exists ("usenet", r6)];
      (split; [set_solver|split; [discriminate|exact H]]).
  - intros ([name x] & Hin & Hname & Hup). simpl in *.
    apply list_elem_of_In in Hin. simpl in Hin.
    destruct Hin as [H|[H|[H|[H|[H|[H|H]]]]]]; try done;
      injection H as <- <-; try done; auto 6.
Qed.

Lemma health_report_witness :
  h_status (runHealthChecks onlyTmdb answering false) = healthy.
Proof.
  destruct (health_report onlyTmdb answering false) as (_ & _ & _ & H).
  apply H.
  - intros kv Hin. apply list_elem_of_In in Hin. simpl in Hin.
    destruct Hin as [E|[E|[E|[E|[E|[E|E]]]]]]; try done; subst kv; discriminate.
  - exists ("tmdb", checkTmdb (Some "tmdb-key") (Responded (mkResponse 200 false true None)) 48).
    split; [|split; [discriminate|reflexivity]].
    apply list_elem_of_In. simpl. auto 6.
Defined.

End HealthFacts.

(* ===================================================================== *)
(** ** Properties of the statistics counters *)
(* ===================================================================== *)

Module StatsFacts.
Import Stats.

(** What the counters keep: the triage classes add up to the candidates
    counted, and the classified blocklist hits and requests do not exceed
    their totals. *)
Lemma apply_keeps (c : call) (s : stats) :
  triageTotal s = t_totalCandidates (triage s) ∧
  b_remux (blocklist s) + b_iso (blocklist s) + b_adult (blocklist s)
    ≤ b_total (blocklist s) ∧
  r_movies (requests s) + r_series (requests s) ≤ r_total (requests s) →
  triageTotal (apply c s) = t_totalCandidates (triage (apply c s)) ∧
  b_remux (blocklist (apply c s)) + b_iso (blocklist (apply c s))
    + b_adult (blocklist (apply c s)) ≤ b_total (blocklist (apply c s)) ∧
  r_movies (requests (apply c s)) + r_series (requests (apply c s))
    ≤ r_total (requests (apply c s)).
Proof.
  assert (∀ st s0,
            triageTotal s0 = t_totalCandidates (triage s0) →
            triageTotal (trackTriageResult st s0)
              = t_totalCandidates (triage (trackTriageResult st s0)) ∧
            blocklist (trackTriageResult st s0) = blocklist s0 ∧
            requests (trackTriageResult st s0) = requests s0) as Htri.
  { intros st s0. unfold triageTotal, trackTriageResult. simpl.
    destruct (String.eqb (label st) "verified"); simpl; [intros; split; [lia|done]|].
    destruct (String.eqb (label st) "unverified" || String.eqb (label st) "unverified_7z");
      simpl; [intros; split; [lia|done]|].
    destruct (String.eqb (label st) "blocked"); simpl; intros; (split; [lia|done]). }
  intros (Ht & Hb & Hr).
  destruct c as [now| | | | | |n|st|ds|d ok|t|t]; unfold apply.
  - unfold resetStats, triageTotal. simpl. lia.
  - split; [exact Ht|split; assumption].
  - split; [exact Ht|split; assumption].
  - split; [exact Ht|split; assumption].
  - split; [exact Ht|split; assumption].
  - split; [exact Ht|split; assumption].
  - split; [exact Ht|split; assumption].
  - destruct (Htri st s Ht) as (H1 & H2 & H3). rewrite H2, H3.
    split; [exact H1|split; assumption].
  - unfold trackTriageBatch. destruct ds as [ds|]; [|split; [exact Ht|split; assumption]].
    revert s Ht Hb Hr.
    induction ds as [|d ds IH]; intros s Ht Hb Hr; [split; [exact Ht|split; assumption]|].
    simpl. destruct (Htri d s Ht) as (H1 & H2 & H3).
    apply IH; [done|by rewrite H2|by rewrite H3].
  - unfold trackDownload. destruct ok; (split; [exact Ht|split; assumption]).
  - split; [exact Ht|]. split; [|exact Hr]. unfold trackBlocklistHit. simpl.
    destruct (String.eqb (label t) "remux"); simpl; [lia|].
    destruct (String.eqb (label t) "iso" || String.eqb (label t) "release"); simpl; [lia|].
    destruct (String.eqb (label t) "adult"); simpl; lia.
  - split; [exact Ht|]. split; [exact Hb|]. unfold trackRequest. simpl.
    destruct (String.eqb (label t) "movie"); simpl; [lia|].
    destruct (String.eqb (label t) "series"); simpl; lia.
Qed.

(** X25. The counters stay consistent: after any sequence of tracking
    calls and resets since module load, the verified, unverified, blocked
    and error counts of the triage add up to the number of candidates
    counted, the remux, iso and adult hits do not exceed the blocklist
    total, and the movie and series requests do not exceed the request
    total. *)
Theorem counters_consistent (calls : list call) (now : Z) :
  let s := applyAll calls (resetStats now) in
  triageTotal s = t_totalCandidates (triage s) ∧
  b_remux (blocklist s) + b_iso (blocklist s) + b_adult (blocklist s)
    ≤ b_total (blocklist s) ∧
  r_movies (requests s) + r_series (requests s) ≤ r_total (requests s).
Proof.
  intros s. subst s. unfold applyAll.
  assert (triageTotal (resetStats now) = t_totalCandidates (triage (resetStats now)) ∧
          b_remux (blocklist (resetStats now)) + b_iso (blocklist (resetStats now))
            + b_adult (blocklist (resetStats now)) ≤ b_total (blocklist (resetStats now)) ∧
          r_movies (requests (resetStats now)) + r_series (requests (resetStats now))
            ≤ r_total (requests (resetStats now))) as H0.
  { unfold resetStats, triageTotal. simpl. lia. }
  revert H0. generalize (resetStats now).
  induction calls as [|c cs IH]; intros s H; [done|].
  simpl. apply IH. by apply apply_keeps.
Qed.

End StatsFacts.

(* ===================================================================== *)
(** ** Properties of the path helpers *)
(* ===================================================================== *)

Module ParsersFacts.
Import Parsers.

Lemma strip_idem (url : string) :
  stripTrailingSlashes (stripTrailingSlashes url) = stripTrailingSlashes url.
Proof.
  induction url as [|c s IH]; [done|]. simpl.
  destruct (Ascii.eqb c "/" && String.eqb (stripTrailingSlashes s) "") eqn:E; [done|].
  simpl. rewrite IH. by rewrite E.
Qed.

Lemma strip_slash (url : string) :
  stripTrailingSlashes (url +:+ "/") = stripTrailingSlashes url.
Proof.
  induction url as [|c s IH]; [done|].
  change (String c s +:+ "/") with (String c (s +:+ "/")). simpl. by rewrite IH.
Qed.

Lemma strip_no_trailing (url : string) : ∀ x, stripTrailingSlashes url ≠ x +:+ "/".
Proof.
  induction url as [|c s IH]; intros x; simpl.
  - by destruct x.
  - destruct (Ascii.eqb c "/" && String.eqb (stripTrailingSlashes s) "") eqn:E.
    + by destruct x.
    + destruct x as [|c' x'].
      * intros [= -> Hs]. rewrite Hs in E. discriminate E.
      * intros [= -> Hs]. by apply IH in Hs.
Qed.

Lemma strip_suffix (url : string) :
  ∃ t, url = stripTrailingSlashes url +:+ t ∧
       HistoryMatching.allChars (λ c, Ascii.eqb c "/") t = true.
Proof.
  induction url as [|c s (t & Ht & Hall)]; [by exists ""|]. simpl.
  destruct (Ascii.eqb c "/" && String.eqb (stripTrailingSlashes s) "") eqn:E.
  - apply andb_true_iff in E as [Ec Es]. apply String.eqb_eq in Es.
    exists (String c s). split; [done|]. simpl. rewrite Ec. simpl.
    rewrite Es in Ht. simpl in Ht. by rewrite Ht.
  - exists t. split; [|done].
    change (String c (stripTrailingSlashes s) +:+ t)
      with (String c (stripTrailingSlashes s +:+ t)).
    by rewrite <- Ht.
Qed.

(** X26. Trailing slashes: [stripTrailingSlashes] removes slashes at the
    end of the URL and nothing else, its result never ends with a slash, it
    does not distinguish URLs that differ by one more trailing slash, and
    applying it twice changes nothing more. *)
Theorem trailing_slashes (url : string) :
  (∃ t, url = stripTrailingSlashes url +:+ t ∧
        HistoryMatching.allChars (λ c, Ascii.eqb c "/") t = true) ∧
  (∀ x, stripTrailingSlashes url ≠ x +:+ "/") ∧
  stripTrailingSlashes (url +:+ "/") = stripTrailingSlashes url ∧
  stripTrailingSlashes (stripTrailingSlashes url) = stripTrailingSlashes url.
Proof.
  split; [apply strip_suffix|]. split; [apply strip_no_trailing|].
  split; [apply strip_slash|apply strip_idem].
Qed.

Lemma slashes_noBackslash (s : string) : noBackslash (slashes s) = true.
Proof.
  induction s as [|c s IH]; [done|].
  unfold noBackslash in *. simpl. rewrite IH.
  destruct (Ascii.eqb c "\") eqn:E; [done|]. by rewrite E.
Qed.

Lemma slashes_fixed (s : string) : noBackslash s = true → slashes s = s.
Proof.
  unfold noBackslash. induction s as [|c s IH]; [done|]. simpl.
  destruct (Ascii.eqb c "\") eqn:E; [done|]. simpl. intros H. by rewrite IH.
Qed.

Lemma slashes_length (s : string) : String.length (slashes s) = String.length s.
Proof. induction s as [|c s IH]; [done|]. simpl. by rewrite IH. Qed.

Lemma normalize_some (c : ascii) (s : string) :
  normalizeNzbdavPath (Some (String c s)) =
  if String.prefix "/" (slashes (String c s)) then slashes (String c s)
  else "/" +:+ slashes (String c s).
Proof. reflexivity. Qed.

Lemma normalize_fixed (q : string) :
  String.prefix "/" q = true → noBackslash q = true → normalizeNzbdavPath (Some q) = q.
Proof.
  intros Hq Hn. destruct q as [|c q']; [done|].
  rewrite normalize_some, (slashes_fixed _ Hn). by rewrite Hq.
Qed.

(** X27. Normalised paths: whatever [normalizeNzbdavPath] is given, the
    result starts with a slash and holds no backslash; a path that is
    already in this form is returned as it is, so normalising twice changes
    nothing more; and only a missing leading slash makes the result longer,
    by one character. *)
Theorem normalized_path (pathValue : option string) :
  let p := normalizeNzbdavPath pathValue in
  String.prefix "/" p = true ∧
  noBackslash p = true ∧
  normalizeNzbdavPath (Some p) = p ∧
  (String.length p ≤ S (String.length (default "" pathValue)))%nat.
Proof.
  intros p. subst p.
  assert (∀ p n, String.prefix "/" p = true → noBackslash p = true →
                 (String.length p ≤ n)%nat →
                 String.prefix "/" p = true ∧ noBackslash p = true ∧
                 normalizeNzbdavPath (Some p) = p ∧ (String.length p ≤ n)%nat) as Hall.
  { intros p n Hp Hn Hl. split; [done|]. split; [done|].
    split; [by apply normalize_fixed|done]. }
  destruct pathValue as [[|c s]|].
  - apply Hall; [done|done|simpl; lia].
  - rewrite normalize_some.
    pose proof (slashes_noBackslash (String c s)) as Hn.
    pose proof (slashes_length (String c s)) as Hl.
    destruct (String.prefix "/" (slashes (String c s))) eqn:E.
    + apply Hall; [done|done|]. cbn [default from_option id]. lia.
    + apply Hall.
      * simpl. by destruct (slashes s).
      * exact Hn.
      * cbn [default from_option id]. change ("/" +:+ slashes (String c s))
          with (String "/" (slashes (String c s))).
        simpl in *. lia.
  - apply Hall; [done|done|simpl; lia].
Qed.

Lemma lowerChar_idem (c : ascii) : Js.lowerChar (Js.lowerChar c) = Js.lowerChar c.
Proof. by destruct c as [[] [] [] [] [] [] [] []]. Qed.

Lemma lowerChar_space (c : ascii) :
  HistoryMatching.isSpace (Js.lowerChar c) = HistoryMatching.isSpace c.
Proof. by destruct c as [[] [] [] [] [] [] [] []]. Qed.

Lemma toLowerCase_idem (s : string) : Js.toLowerCase (Js.toLowerCase s) = Js.toLowerCase s.
Proof. induction s as [|c s IH]; [done|]. simpl. by rewrite lowerChar_idem, IH. Qed.

Lemma toLowerCase_empty (s : string) : String.eqb (Js.toLowerCase s) "" = String.eqb s "".
Proof. by destruct s. Qed.

Lemma trimStart_lower (s : string) :
  HistoryMatching.trimStart (Js.toLowerCase s) = Js.toLowerCase (HistoryMatching.trimStart s).
Proof.
  induction s as [|c s IH]; [done|]. simpl. rewrite lowerChar_space.
  by destruct (HistoryMatching.isSpace c).
Qed.

Lemma trimEnd_lower (s : string) :
  HistoryMatching.trimEnd (Js.toLowerCase s) = Js.toLowerCase (HistoryMatching.trimEnd s).
Proof.
  induction s as [|c s IH]; [done|]. simpl.
  rewrite lowerChar_space, IH, toLowerCase_empty.
  by destruct (HistoryMatching.isSpace c && _).
Qed.

Lemma trimEnd_idem (s : string) :
  HistoryMatching.trimEnd (HistoryMatching.trimEnd s) = HistoryMatching.trimEnd s.
Proof.
  induction s as [|c s IH]; [done|]. simpl.
  destruct (HistoryMatching.isSpace c && String.eqb (HistoryMatching.trimEnd s) "") eqn:E;
    [done|].
  simpl. rewrite IH. by rewrite E.
Qed.

Lemma trimStart_trimmed (s : string) :
  HistoryMatching.trimStart (HistoryMatching.trim s) = HistoryMatching.trim s.
Proof.
  unfold HistoryMatching.trim. induction s as [|c s IH]; [done|].
  simpl. destruct (HistoryMatching.isSpace c) eqn:E; [done|].
  simpl. rewrite E. simpl. by rewrite E.
Qed.

Lemma trim_idem (s : string) :
  HistoryMatching.trim (HistoryMatching.trim s) = HistoryMatching.trim s.
Proof.
  unfold HistoryMatching.trim at 1. rewrite trimStart_trimmed.
  unfold HistoryMatching.trim. apply trimEnd_idem.
Qed.

Lemma trim_lower (s : string) :
  HistoryMatching.trim (Js.toLowerCase s) = Js.toLowerCase (HistoryMatching.trim s).
Proof. unfold HistoryMatching.trim. by rewrite trimStart_lower, trimEnd_lower. Qed.

Lemma normalize_token_idem (value : option string) :
  normalizeIndexerToken (normalizeIndexerToken value) = normalizeIndexerToken value.
Proof.
  destruct value as [v|]; [|done]. unfold normalizeIndexerToken at 2 3.
  destruct (0 <? _)%nat eqn:E; [|done].
  unfold normalizeIndexerToken.
  by rewrite trim_lower, trim_idem, toLowerCase_idem, E.
Qed.

Lemma normalize_token_nonempty (value : option string) :
  normalizeIndexerToken value ≠ Some "".
Proof.
  destruct value as [v|]; [|done]. unfold normalizeIndexerToken.
  destruct (0 <? _)%nat eqn:E; [|done].
  intros [= H]. rewrite H in E. discriminate E.
Qed.

(** X29. Indexer tokens are canonical: normalising a token a second time
    changes nothing and never yields the empty token, so the indexer filter
    answers the same for a result and for the result with its id and name
    replaced by their tokens; a missing or empty token set lets every
    result pass. *)
Theorem indexer_tokens_canonical (value : option string) (result : option nzbResult)
    (tokenSet : option (gset string)) :
  normalizeIndexerToken (normalizeIndexerToken value) = normalizeIndexerToken value ∧
  normalizeIndexerToken value ≠ Some "" ∧
  nzbMatchesIndexer (canonical result) tokenSet = nzbMatchesIndexer result tokenSet ∧
  nzbMatchesIndexer result None = true ∧
  nzbMatchesIndexer result (Some ∅) = true.
Proof.
  split; [apply normalize_token_idem|]. split; [apply normalize_token_nonempty|].
  split; [|done].
  unfold nzbMatchesIndexer. destruct tokenSet as [tokens|]; [|done].
  destruct (size tokens =? 0)%nat; [done|].
  destruct result as [r|]; [|done]. simpl.
  by rewrite !normalize_token_idem.
Qed.
End ParsersFacts.
